(** * Ask-Ocr: the external/blocking-task bridge of the Tauri backend

    Shallow embedding of the Rust code in
    - [src/Code/src-tauri/src/ollama/commands.rs]     (streaming model pull)
    - [src/Code/src-tauri/src/audio_ai/mod.rs]        (Python helper invoker, cancel flag)
    - [src/Code/src-tauri/src/player.rs]              (audio worker thread and channel)
    - [src/cleancode/src-tauri/src/screenshot/mod.rs] (clipboard polling loop)

    Library code the program calls (serde_json, reqwest, std::process,
    the file system, rodio, PowerShell) is kept abstract: it enters as
    Section variables, so every theorem holds for any behaviour of it. *)

From Stdlib Require Import List String Ascii Bool Arith Lia ZArith NArith.
From Stdlib Require Import PrimFloat FloatOps SpecFloat.
From Stdlib Require Import Relation_Operators.
Import ListNotations.
Open Scope list_scope.
Open Scope string_scope.

(** ** Shared types *)

(** Rust's [Result<T, E>]. *)
Inductive Result (T E : Type) : Type :=
| Ok : T -> Result T E
| Err : E -> Result T E.
Arguments Ok {T E} _.
Arguments Err {T E} _.

(** [u64 as f64]: round-to-nearest conversion of an integer to binary64. *)
Definition u64_to_f64 (n : N) : float :=
  SF2Prim (binary_normalize prec emax (Z.of_N n) 0 false).

(** ** Rust string helpers *)

Definition lf : ascii := ascii_of_nat 10.
Definition cr : ascii := ascii_of_nat 13.
Definition nl : string := String lf EmptyString.

(** [char::is_whitespace] on the character a string starts with: the number
    of bytes of that character when it is White_Space, 0 when it is not (or
    the string is empty). Strings are the UTF-8 bytes of a Rust [str]. The
    White_Space characters are U+0009..U+000D and U+0020 (one byte), U+0085
    and U+00A0 (C2 85, C2 A0), U+1680 (E1 9A 80), U+2000..U+200A
    (E2 80 80..8A), U+2028, U+2029, U+202F (E2 80 A8, A9, AF), U+205F
    (E2 81 9F) and U+3000 (E3 80 80). In valid UTF-8 a lead byte and the
    continuation bytes after it are one character, so these byte patterns
    at a character boundary are exactly those characters. *)
Definition ws_len (s : string) : nat :=
  match s with
  | EmptyString => 0
  | String c0 s1 =>
      let b0 := nat_of_ascii c0 in
      if Nat.eqb b0 32 || (Nat.leb 9 b0 && Nat.leb b0 13) then 1
      else
        match s1 with
        | EmptyString => 0
        | String c1 s2 =>
            let b1 := nat_of_ascii c1 in
            if Nat.eqb b0 194 && (Nat.eqb b1 133 || Nat.eqb b1 160) then 2
            else
              match s2 with
              | EmptyString => 0
              | String c2 _ =>
                  let b2 := nat_of_ascii c2 in
                  if (Nat.eqb b0 225 && Nat.eqb b1 154 && Nat.eqb b2 128)
                     || (Nat.eqb b0 226 && Nat.eqb b1 128 &&
                         ((Nat.leb 128 b2 && Nat.leb b2 138) || Nat.eqb b2 168 ||
                          Nat.eqb b2 169 || Nat.eqb b2 175))
                     || (Nat.eqb b0 226 && Nat.eqb b1 129 && Nat.eqb b2 159)
                     || (Nat.eqb b0 227 && Nat.eqb b1 128 && Nat.eqb b2 128)
                  then 3 else 0
              end
        end
  end.

(** After skipping [skip] bytes (the rest of a whitespace character), the
    string holds whitespace characters only. *)
Fixpoint all_ws_go (skip : nat) (s : string) : bool :=
  match s with
  | EmptyString => true
  | String _ s' =>
      match skip with
      | S k => all_ws_go k s'
      | O => match ws_len s with O => false | S k => all_ws_go k s' end
      end
  end.

(** [s.trim().is_empty()]: [s] is a sequence of whitespace characters. *)
Definition trim_is_empty (s : string) : bool := all_ws_go 0 s.

(** Split on '\n': the first piece and the pieces after each '\n'. *)
Fixpoint split_lf (s : string) : string * list string :=
  match s with
  | EmptyString => (EmptyString, [])
  | String c s' =>
      let (p, ps) := split_lf s' in
      if Ascii.eqb c lf then (EmptyString, p :: ps) else (String c p, ps)
  end.

(** Drop one trailing '\r' (the "\r\n" line ending). *)
Fixpoint strip_cr (s : string) : string :=
  match s with
  | EmptyString => EmptyString
  | String c EmptyString => if Ascii.eqb c cr then EmptyString else s
  | String c s' => String c (strip_cr s')
  end.

Fixpoint lines_of (p : string) (ps : list string) : list string :=
  match ps with
  | [] => if String.eqb p EmptyString then [] else [p]
  | q :: qs => strip_cr p :: lines_of q qs
  end.

(** [str::lines]: lines end in "\n" or "\r\n"; the final line ending is
    optional, so a trailing empty piece is not a line. *)
Definition lines (s : string) : list string :=
  let (p, ps) := split_lf s in lines_of p ps.

(** * StreamingTaskRunner: [ollama_pull_model] *)
Module Ollama.

(** [struct PullResponse] *)
Record PullResponse := {
  pr_status : string;
  pr_digest : option string;
  pr_total : option N;
  pr_completed : option N;
  pr_error : option string
}.

(** [struct DownloadProgress] *)
Record DownloadProgress := {
  dp_status : string;
  dp_progress : float;
  dp_downloaded_bytes : N;
  dp_total_bytes : N;
  dp_error : option string
}.

(** The payload of [window.emit("ollama-progress", json!({"model", "data"}))]. *)
Record ProgressEvent := {
  ev_model : string;
  ev_data : DownloadProgress
}.

(** What the runner has done so far: events emitted to the window, lines
    handed to [serde_json::from_str], chunks pulled from the byte stream. *)
Record Trace := {
  emitted : list ProgressEvent;
  parsed : list string;
  pulled : nat
}.

Definition trace0 : Trace := {| emitted := []; parsed := []; pulled := 0 |}.

Definition log_parse (l : string) (tr : Trace) : Trace :=
  {| emitted := emitted tr; parsed := (parsed tr ++ [l])%list; pulled := pulled tr |}.
Definition log_emit (ev : ProgressEvent) (tr : Trace) : Trace :=
  {| emitted := (emitted tr ++ [ev])%list; parsed := parsed tr; pulled := pulled tr |}.
Definition log_pull (tr : Trace) : Trace :=
  {| emitted := emitted tr; parsed := parsed tr; pulled := S (pulled tr) |}.

(** The progress fields computed from one record:
    [(progress, downloaded, total)]. *)
Definition record_progress (r : PullResponse) : float * N * N :=
  match pr_completed r, pr_total r with
  | Some c, Some t =>
      if (0 <? t)%N
      then (((u64_to_f64 c / u64_to_f64 t) * 100.0)%float, c, t)
      else (0.0%float, 0%N, 0%N)
  | _, _ => (0.0%float, 0%N, 0%N)
  end.

Definition progress_event (model_name : string) (r : PullResponse) : ProgressEvent :=
  let '(progress, downloaded, total) := record_progress r in
  {| ev_model := model_name;
     ev_data := {| dp_status := pr_status r;
                   dp_progress := progress;
                   dp_downloaded_bytes := downloaded;
                   dp_total_bytes := total;
                   dp_error := None |} |}.

Section Runner.

(** [serde_json::from_str::<PullResponse>]; [None] is a parse error. *)
Variable parse_pull_response : string -> option PullResponse.
(** [window.emit]; [Some e] is an emit failure with message [e]. *)
Variable emit : ProgressEvent -> option string.
Variable model_name : string.

(** The inner [for line in chunk_str.lines()] loop: [None] means the loop
    ran to its end, [Some e] that the function returned [Err e]. *)
Fixpoint process_lines (ls : list string) (tr : Trace) : Trace * option string :=
  match ls with
  | [] => (tr, None)
  | line :: rest =>
      if trim_is_empty line then process_lines rest tr
      else
        let tr1 := log_parse line tr in
        match parse_pull_response line with
        | None => process_lines rest tr1
        | Some response =>
            match pr_error response with
            | Some error => (tr1, Some error)
            | None =>
                let ev := progress_event model_name response in
                match emit ev with
                | Some e => (tr1, Some ("Failed to emit event: " ++ e))
                | None => process_lines rest (log_emit ev tr1)
                end
            end
        end
  end.

(** The outer [while let Some(item) = stream.next().await] loop over the
    byte stream; each item is a chunk (already UTF-8-decoded) or a
    transport error. *)
Fixpoint pull_loop (stream : list (Result string string)) (tr : Trace)
  : Trace * Result unit string :=
  match stream with
  | [] => (tr, Ok tt)
  | item :: rest =>
      let tr1 := log_pull tr in
      match item with
      | Err e => (tr1, Err ("Stream error: " ++ e))
      | Ok chunk_str =>
          match process_lines (lines chunk_str) tr1 with
          | (tr2, Some e) => (tr2, Err e)
          | (tr2, None) => pull_loop rest tr2
          end
      end
  end.

(** [ollama_pull_model]: the POST either fails to start or yields the stream. *)
Definition ollama_pull_model (response : Result (list (Result string string)) string)
  : Trace * Result unit string :=
  match response with
  | Err e => (trace0, Err ("Failed to start pull: " ++ e))
  | Ok stream => pull_loop stream trace0
  end.

End Runner.

End Ollama.

(** * ExternalProcessInvoker and CancellationToken: [audio_ai/mod.rs] *)
Module AudioAI.

(** [struct ModelStatus] *)
Record ModelStatus := {
  whisper_models : list string;
  diarization_installed : bool;
  denoiser_installed : bool
}.

(** [struct DownloadResult] *)
Record DownloadResult := {
  dr_success : bool;
  dr_message : option string;
  dr_error : option string
}.

(** [struct TranscriptionSegment] *)
Record TranscriptionSegment := {
  seg_start : float;
  seg_end : float;
  seg_text : string
}.

(** [struct TranscriptionResult] *)
Record TranscriptionResult := {
  tr_success : bool;
  tr_text : option string;
  tr_segments : option (list TranscriptionSegment);
  tr_language : option string;
  tr_output_path : option string;
  tr_error : option string
}.

(** [std::process::Output], with stdout and stderr already decoded. *)
Record Output := {
  status_success : bool;
  stdout : string;
  stderr : string
}.

(** The process-wide state the commands touch: the [CANCEL_DOWNLOAD]
    flag, and the child processes created so far (program, script, args). *)
Record World := {
  cancel_download : bool;
  children : list (string * string * list string)
}.

(** A state and error monad over [World] for the [?]-style commands. *)
Definition M (A : Type) : Type := World -> World * Result A string.

Definition ret {A} (a : A) : M A := fun w => (w, Ok a).
Definition fail {A} (e : string) : M A := fun w => (w, Err e).
Definition bind {A B} (m : M A) (k : A -> M B) : M B :=
  fun w => match m w with
           | (w', Ok a) => k a w'
           | (w', Err e) => (w', Err e)
           end.
(** [r.map_err(f)?] *)
Definition lift {A} (r : Result A string) (f : string -> string) : M A :=
  fun w => match r with Ok a => (w, Ok a) | Err e => (w, Err (f e)) end.

Notation "x <- m ;; k" := (bind m (fun x => k))
  (at level 61, m at next level, right associativity).
Notation "m ;;; k" := (bind m (fun _ => k))
  (at level 61, right associativity).

(** [CANCEL_DOWNLOAD.store(b, SeqCst)] *)
Definition store_cancel (b : bool) : M unit :=
  fun w => ({| cancel_download := b; children := children w |}, Ok tt).

Definition venv_paths : list string :=
  [ "../.venv/Scripts/python.exe";
    "../../.venv/Scripts/python.exe";
    ".venv/Scripts/python.exe";
    "F:/Ask_Ocr/Code/.venv/Scripts/python.exe";
    "F:/Ask_Ocr/Code/python_backend/.venv/Scripts/python.exe" ].

Definition script_paths : list string :=
  [ "../python_backend/audio_ai_helper.py";
    "../../python_backend/audio_ai_helper.py";
    "python_backend/audio_ai_helper.py";
    "F:/Ask_Ocr/Code/python_backend/audio_ai_helper.py" ].

Section Invoker.

(** [PathBuf::exists] *)
Variable path_exists : string -> bool.
(** [Command::new(program).arg(script).args(args).output()]: [Err e] when
    the process cannot be created at all, else the finished child's output. *)
Variable run_child : string -> string -> list string -> Result Output string.
(** [serde_json::from_str] at the three result schemas; [Err e] carries the
    Display text of the [serde_json::Error]. *)
Variable parse_ModelStatus : string -> Result ModelStatus string.
Variable parse_DownloadResult : string -> Result DownloadResult string.
Variable parse_TranscriptionResult : string -> Result TranscriptionResult string.
(** [serde_json::json!({"model", "format", "language"?}).to_string()] *)
Variable transcribe_params : string -> string -> option string -> string.

(** The [for path in &paths { if path.exists() { return ... } }] search. *)
Fixpoint first_existing (ps : list string) : option string :=
  match ps with
  | [] => None
  | p :: ps' => if path_exists p then Some p else first_existing ps'
  end.

Definition get_python_executable : string :=
  match first_existing venv_paths with
  | Some p => p
  | None => "python"
  end.

Definition get_audio_ai_script_path : Result string string :=
  match first_existing script_paths with
  | Some p => Ok p
  | None => Err "Audio AI helper script not found"
  end.

(** [cmd.output().map_err(...)?]: a created child is recorded in [children]. *)
Definition command_output (program script : string) (args : list string) : M Output :=
  fun w =>
    match run_child program script args with
    | Err e => (w, Err ("Failed to execute command: " ++ e))
    | Ok out =>
        ({| cancel_download := cancel_download w;
            children := (children w ++ [(program, script, args)])%list |}, Ok out)
    end.

Definition run_python_audio_command (args : list string) : M string :=
  let python_exe := get_python_executable in
  script_path <- lift get_audio_ai_script_path (fun e => e) ;;
  output <- command_output python_exe script_path args ;;
  if status_success output
  then ret (stdout output)
  else fail ("Command failed: " ++ stderr output ++ nl ++ stdout output).

Definition check_ai_models : M ModelStatus :=
  output <- run_python_audio_command ["check-models"] ;;
  lift (parse_ModelStatus output) (fun e => "Failed to parse model status: " ++ e).

Definition download_whisper_model (model_name : string) : M DownloadResult :=
  store_cancel false ;;;
  output <- run_python_audio_command ["download-whisper"; model_name] ;;
  lift (parse_DownloadResult output) (fun e => "Failed to parse download result: " ++ e).

Definition download_diarization_model : M DownloadResult :=
  store_cancel false ;;;
  output <- run_python_audio_command ["download-diarization"] ;;
  lift (parse_DownloadResult output) (fun e => "Failed to parse download result: " ++ e).

Definition download_denoiser_model : M DownloadResult :=
  store_cancel false ;;;
  output <- run_python_audio_command ["download-denoiser"] ;;
  lift (parse_DownloadResult output) (fun e => "Failed to parse download result: " ++ e).

Definition cancel_model_download : M unit :=
  store_cancel true ;;; ret tt.

Definition unwrap_or (o : option string) (d : string) : string :=
  match o with Some s => s | None => d end.

Definition transcribe_audio (audio_path : string) (model_name language output_format : option string)
  : M TranscriptionResult :=
  let model := unwrap_or model_name "base" in
  let format := unwrap_or output_format "srt" in
  let params_str := transcribe_params model format language in
  output <- run_python_audio_command ["transcribe"; audio_path; params_str] ;;
  lift (parse_TranscriptionResult output)
       (fun e => "Failed to parse transcription result: " ++ e).

End Invoker.

End AudioAI.

(** * PersistentWorkerThread and WorkerChannel: [player.rs] *)
Module Player.

(** [enum AudioCommand]; the [f32] volume is carried as a binary64 value,
    it is only passed through to the sink. *)
Inductive AudioCommand :=
| Play (path : string)
| Pause
| Resume
| Stop
| SetVolume (vol : float)
| Seek (time : float).

(** The calls the worker makes on the rodio [Sink]. *)
Inductive SinkCall :=
| SinkStop
| SinkAppend (source : string)
| SinkPlay
| SinkPause
| SinkSetVolume (vol : float)
| SinkTrySeek (time : float).

(** The part of the rodio [Sink] state the worker reads: the queued
    sources ([sink.empty()]), the paused flag and the volume. *)
Record Sink := {
  sources : list string;
  paused : bool;
  volume : float
}.

Definition sink0 : Sink := {| sources := []; paused := false; volume := 1.0%float |}.

Definition sink_empty (sk : Sink) : bool :=
  match sources sk with [] => true | _ => false end.

(** The effect of one sink call on the sink state. *)
Definition apply_call (sk : Sink) (c : SinkCall) : Sink :=
  match c with
  | SinkStop => {| sources := []; paused := paused sk; volume := volume sk |}
  | SinkAppend src => {| sources := (sources sk ++ [src])%list; paused := paused sk; volume := volume sk |}
  | SinkPlay => {| sources := sources sk; paused := false; volume := volume sk |}
  | SinkPause => {| sources := sources sk; paused := true; volume := volume sk |}
  | SinkSetVolume v => {| sources := sources sk; paused := paused sk; volume := v |}
  | SinkTrySeek _ => sk
  end.

Section Worker.

(** [File::open(&path)] and [Decoder::new(reader)] succeed or not. *)
Variable file_open_ok : string -> bool.
Variable decoder_ok : string -> bool.

(** The body of the worker's [match command { ... }]: the sink calls made
    for one command, given the sink state when it is received. Open and
    decode failures are only logged. *)
Definition command_calls (command : AudioCommand) (sk : Sink) : list SinkCall :=
  match command with
  | Play path =>
      if file_open_ok path then
        if decoder_ok path then
          ((if negb (sink_empty sk) then [SinkStop] else []) ++ [SinkAppend path; SinkPlay])%list
        else []
      else []
  | Pause => [SinkPause]
  | Resume => [SinkPlay]
  | Stop => [SinkStop]
  | SetVolume vol => [SinkSetVolume vol]
  | Seek time => [SinkTrySeek time]
  end.

(** The shared state of an [AudioPlayer] and its worker thread.
    [chan] holds the commands sent but not yet received; [executed] is the
    worker's history (each received command with the sink calls it made),
    [sink_log] the calls the sink has observed. [enqueued] and [dropped] are
    ghost history: every command accepted by the channel, and those still
    queued when the receiver went away. *)
Record System := {
  poisoned : bool;
  worker_alive : bool;
  chan : list AudioCommand;
  sink : Sink;
  executed : list (AudioCommand * list SinkCall);
  sink_log : list SinkCall;
  enqueued : list AudioCommand;
  dropped : list AudioCommand
}.

(** [AudioPlayer::new()]: a fresh channel and a spawned worker. *)
Definition new_player : System :=
  {| poisoned := false; worker_alive := true; chan := []; sink := sink0;
     executed := []; sink_log := []; enqueued := []; dropped := [] |}.

(** [AudioPlayer::send]: [if let Ok(sender) = self.sender.lock()
    { let _ = sender.send(command); }]. A poisoned lock or a disconnected
    receiver makes the command vanish; nothing is returned. *)
Definition send (command : AudioCommand) (s : System) : System :=
  if poisoned s then s
  else if worker_alive s then
    {| poisoned := poisoned s; worker_alive := worker_alive s;
       chan := (chan s ++ [command])%list; sink := sink s;
       executed := executed s; sink_log := sink_log s;
       enqueued := (enqueued s ++ [command])%list; dropped := dropped s |}
  else s.

(** The Tauri commands: they return [()]. *)
Definition play_audio (s : System) (path : string) : System * unit := (send (Play path) s, tt).
Definition pause_audio (s : System) : System * unit := (send Pause s, tt).
Definition resume_audio (s : System) : System * unit := (send Resume s, tt).
Definition stop_audio (s : System) : System * unit := (send Stop s, tt).
Definition set_volume (s : System) (volume : float) : System * unit := (send (SetVolume volume) s, tt).
Definition seek_audio (s : System) (time : float) : System * unit := (send (Seek time) s, tt).

(** One iteration of [while let Ok(command) = rx.recv()]. *)
Definition worker_recv (s : System) : option System :=
  if worker_alive s then
    match chan s with
    | [] => None
    | command :: rest =>
        let calls := command_calls command (sink s) in
        Some {| poisoned := poisoned s; worker_alive := true; chan := rest;
                sink := fold_left apply_call calls (sink s);
                executed := (executed s ++ [(command, calls)])%list;
                sink_log := (sink_log s ++ calls)%list;
                enqueued := enqueued s; dropped := dropped s |}
    end
  else None.

(** All interleavings of producers and the worker. *)
Inductive step : System -> System -> Prop :=
| step_send : forall s command, step s (send command s)
| step_recv : forall s s', worker_recv s = Some s' -> step s s'
| step_source_done : forall s src rest,
    (* the sink finishes playing its first source *)
    sources (sink s) = src :: rest ->
    step s {| poisoned := poisoned s; worker_alive := worker_alive s; chan := chan s;
              sink := {| sources := rest; paused := paused (sink s); volume := volume (sink s) |};
              executed := executed s; sink_log := sink_log s;
              enqueued := enqueued s; dropped := dropped s |}
| step_worker_exit : forall s,
    (* the worker returns (no output device) and drops the receiver *)
    step s {| poisoned := poisoned s; worker_alive := false; chan := [];
              sink := sink s; executed := executed s; sink_log := sink_log s;
              enqueued := enqueued s; dropped := (dropped s ++ chan s)%list |}
| step_poison : forall s,
    (* a thread panics while holding the sender lock *)
    step s {| poisoned := true; worker_alive := worker_alive s; chan := chan s;
              sink := sink s; executed := executed s; sink_log := sink_log s;
              enqueued := enqueued s; dropped := dropped s |}.

Inductive reachable : System -> Prop :=
| reach_new : reachable new_player
| reach_step : forall s s', reachable s -> step s s' -> reachable s'.

End Worker.

End Player.

(** * PollingCompletionWatcher: [wait_for_clipboard_image] (screenshot/mod.rs) *)
Module Screenshot.

(** [struct ScreenshotResult] *)
Record ScreenshotResult := {
  ss_success : bool;
  ss_image_data : option string;
  ss_image_path : option string;
  ss_error : option string
}.

(** [str::trim_start]: drop the whitespace characters at the front; [skip]
    counts the bytes left of the character being dropped. *)
Fixpoint trim_start_go (skip : nat) (s : string) : string :=
  match s with
  | EmptyString => EmptyString
  | String _ s' =>
      match skip with
      | S k => trim_start_go k s'
      | O => match ws_len s with O => s | S k => trim_start_go k s' end
      end
  end.

Definition trim_start (s : string) : string := trim_start_go 0 s.

(** [str::trim_end]: a byte is kept unless the string from it on is
    whitespace characters only. A continuation byte (0x80..0xBF) never
    starts a whitespace character, so the cut falls on a character
    boundary, at the start of the longest all-whitespace suffix. *)
Fixpoint trim_end (s : string) : string :=
  match s with
  | EmptyString => EmptyString
  | String c s' => if trim_is_empty s then EmptyString else String c (trim_end s')
  end.

(** [str::trim] *)
Definition trim (s : string) : string := trim_end (trim_start s).

Definition budget_ms : N := 60000.
Definition initial_delay_ms : N := 1000.
Definition interval_ms : N := 500.

Definition timeout_message : string := "Timed out waiting for screenshot or cancelled".

Section Watcher.

(** The PowerShell clipboard probe started at a given elapsed time (ms):
    [Ok stdout], or [Err] when [Command::output] fails. *)
Variable powershell : N -> Result string string.
(** How long the probe started at a given elapsed time runs (ms). *)
Variable probe_ms : N -> N.

(** The [while start.elapsed() < 60s] loop. The result is the image data
    found, if any. Each round costs at least [interval_ms], so
    [budget_ms / interval_ms] rounds of fuel are never exhausted. *)
Fixpoint poll_loop (fuel : nat) (elapsed : N) : option string :=
  match fuel with
  | O => None
  | S fuel' =>
      if N.ltb elapsed budget_ms then
        let next := (elapsed + probe_ms elapsed + interval_ms)%N in
        match powershell elapsed with
        | Ok out =>
            let stdout := trim out in
            if String.eqb stdout EmptyString then poll_loop fuel' next
            else Some ("data:image/png;base64," ++ stdout)
        | Err _ => poll_loop fuel' next
        end
      else None
  end.

(** [wait_for_clipboard_image]: the 1 s initial sleep, then the loop. The
    [attempt] counter only drives logging, and [cleanup_latest_screenshot]
    returns nothing; neither affects the result, so they are left out. *)
Definition wait_for_clipboard_image : Result ScreenshotResult string :=
  match poll_loop (N.to_nat (budget_ms / interval_ms)) initial_delay_ms with
  | Some image =>
      Ok {| ss_success := true; ss_image_data := Some image;
            ss_image_path := None; ss_error := None |}
  | None =>
      Ok {| ss_success := false; ss_image_data := None;
            ss_image_path := None; ss_error := Some timeout_message |}
  end.

End Watcher.

End Screenshot.

(** * The other helper commands of [audio_ai/mod.rs] *)
Module AudioAICommands.
Import AudioAI.

(** [serde_json::Number] and [serde_json::Value]; objects keep their
    entries in key order. *)
Inductive JsonNumber :=
| JPosInt (n : N)
| JNegInt (z : Z)
| JFloat (f : float).

#[warnings="-register-all"]
Inductive Value :=
| JNull
| JBool (b : bool)
| JNumber (n : JsonNumber)
| JString (s : string)
| JArray (vs : list Value)
| JObject (kvs : list (string * Value)).

(** [struct DiarizationSegment] *)
Record DiarizationSegment := {
  ds_start : float;
  ds_end : float;
  ds_text : string;
  ds_speaker : string
}.

(** [struct DiarizationResult] *)
Record DiarizationResult := {
  dz_success : bool;
  dz_full_text : option string;
  dz_segments : option (list DiarizationSegment);
  dz_speakers : option (list string);
  dz_num_speakers : option N;
  dz_speakers_data : option Value;
  dz_error : option string
}.

(** [struct ExportResult] *)
Record ExportResult := {
  ex_success : bool;
  ex_output_path : option string;
  ex_error : option string
}.

(** [struct DenoiseResult] *)
Record DenoiseResult := {
  dn_success : bool;
  dn_output_path : option string;
  dn_error : option string
}.

(** [struct FFmpegCommandResult] *)
Record FFmpegCommandResult := {
  ff_success : bool;
  ff_output : option string;
  ff_error : option string
}.

(** [char::to_ascii_lowercase] *)
Definition ascii_lower (c : ascii) : ascii :=
  let n := nat_of_ascii c in
  if Nat.leb 65 n && Nat.leb n 90 then ascii_of_nat (n + 32) else c.

(** [str::to_lowercase] on ASCII letters; the bytes of other characters
    are kept. The only non-ASCII characters whose lowercase form holds an
    ASCII letter are U+212A (to "k") and U+0130 (to "i" then U+0307); no
    pattern below has a "k", and in each the "i" is followed by an ASCII
    letter, so they cannot complete a match either way. *)
Fixpoint to_lowercase (s : string) : string :=
  match s with
  | EmptyString => EmptyString
  | String c s' => String (ascii_lower c) (to_lowercase s')
  end.

(** [str::contains] with a [&str] pattern. *)
Fixpoint contains (s pat : string) : bool :=
  String.prefix pat s ||
  match s with
  | EmptyString => false
  | String _ s' => contains s' pat
  end.

Definition dangerous_patterns : list string :=
  [ "rm "; "del "; "format "; "rmdir "; "rd " ].

Definition forbidden_result : FFmpegCommandResult :=
  {| ff_success := false; ff_output := None;
     ff_error := Some "Command contains forbidden patterns" |}.

Section Commands.

Variable path_exists : string -> bool.
Variable run_child : string -> string -> list string -> Result Output string.
(** [serde_json::from_str] at the result schemas. *)
Variable parse_Value : string -> Result Value string.
Variable parse_DiarizationResult : string -> Result DiarizationResult string.
Variable parse_ExportResult : string -> Result ExportResult string.
Variable parse_DenoiseResult : string -> Result DenoiseResult string.
Variable parse_FFmpegCommandResult : string -> Result FFmpegCommandResult string.
(** The [serde_json::json!] parameter documents, rendered with [to_string]. *)
Variable diarize_params : string -> option string -> option N -> option N -> string.
Variable export_speaker_params : DiarizationResult -> string -> string -> string.
Variable export_all_params : DiarizationResult -> string -> string -> string.
Variable extract_params : DiarizationResult -> string -> string -> bool -> string.

Definition debug_python_env : M Value :=
  output <- run_python_audio_command path_exists run_child ["debug-env"] ;;
  lift (parse_Value output) (fun e => "Failed to parse debug result: " ++ e).

Definition transcribe_with_diarization (audio_path : string) (model_name language : option string)
  (num_speakers max_speakers : option N) : M DiarizationResult :=
  let model := unwrap_or model_name "base" in
  let params_str := diarize_params model language num_speakers max_speakers in
  output <- run_python_audio_command path_exists run_child
              ["transcribe-diarize"; audio_path; params_str] ;;
  lift (parse_DiarizationResult output)
       (fun e => "Failed to parse diarization result: " ++ e).

Definition export_speaker_srt (diarization_result : DiarizationResult) (speaker output_path : string)
  : M ExportResult :=
  let params_str := export_speaker_params diarization_result speaker output_path in
  output <- run_python_audio_command path_exists run_child ["extract-speaker"; ""; params_str] ;;
  lift (parse_ExportResult output) (fun e => "Failed to parse export result: " ++ e).

Definition export_all_speakers_srt (diarization_result : DiarizationResult) (output_dir base_name : string)
  : M ExportResult :=
  let params_str := export_all_params diarization_result output_dir base_name in
  output <- run_python_audio_command path_exists run_child ["extract-speaker"; ""; params_str] ;;
  lift (parse_ExportResult output) (fun e => "Failed to parse export result: " ++ e).

Definition extract_speaker_audio (audio_path : string) (diarization_result : DiarizationResult)
  (speaker output_path : string) (per_sentence : option bool) : M ExportResult :=
  let per_sent := match per_sentence with Some b => b | None => false end in
  let params_str := extract_params diarization_result speaker output_path per_sent in
  output <- run_python_audio_command path_exists run_child
              ["extract-speaker"; audio_path; params_str] ;;
  lift (parse_ExportResult output) (fun e => "Failed to parse export result: " ++ e).

Definition remove_background_noise (audio_path output_path : string) (method : option string)
  : M DenoiseResult :=
  let denoise_method := unwrap_or method "denoiser" in
  output <- run_python_audio_command path_exists run_child
              ["denoise"; audio_path; output_path; denoise_method] ;;
  lift (parse_DenoiseResult output) (fun e => "Failed to parse denoise result: " ++ e).

Definition denoise_audio_ffmpeg (input_path output_dir : string) (method : option string)
  (_strength : option Z) : M DenoiseResult :=
  let denoise_method := unwrap_or method "ffmpeg" in
  output <- run_python_audio_command path_exists run_child
              ["denoise"; input_path; output_dir; denoise_method] ;;
  lift (parse_DenoiseResult output) (fun e => "Failed to parse denoise result: " ++ e).

(** The [for pattern in &dangerous_patterns] loop returns on the first
    pattern found, always with the same value: it is [existsb]. *)
Definition run_ffmpeg_command (command : string) : M FFmpegCommandResult :=
  let cmd_lower := to_lowercase command in
  if existsb (contains cmd_lower) dangerous_patterns then ret forbidden_result
  else
    output <- run_python_audio_command path_exists run_child
                ["--action"; "run_ffmpeg"; "--command"; command] ;;
    lift (parse_FFmpegCommandResult output) (fun e => "Failed to parse FFmpeg result: " ++ e).

End Commands.

End AudioAICommands.

(** * [ollama_list_models], [ollama_delete_model] (commands.rs) and
    [generate_ffmpeg_command] (audio_ai/mod.rs) *)
Module OllamaCommands.

(** [struct OllamaModelDetails] *)
Record OllamaModelDetails := {
  od_format : string;
  od_family : string;
  od_families : option (list string);
  od_parameter_size : string;
  od_quantization_level : string
}.

(** [struct OllamaModel] *)
Record OllamaModel := {
  om_name : string;
  om_size : N;
  om_digest : string;
  om_modified_at : string;
  om_details : option OllamaModelDetails
}.

(** A response received by [reqwest]: its status code and its body. *)
Record HttpResponse := {
  http_status : N;
  http_body : string
}.

(** [StatusCode::is_success]: 200 to 299. *)
Definition is_success (code : N) : bool := (200 <=? code)%N && (code <? 300)%N.

Definition dq : string := String (ascii_of_nat 34) EmptyString.

(** The raw string [system_prompt] of [generate_ffmpeg_command]. *)
Definition system_prompt : string :=
  String.concat nl
    [ "You are an FFmpeg command line expert. Your task is to generate a precise, valid FFmpeg command.";
      "";
      "RULES:";
      "1. Output ONLY the ffmpeg command, nothing else - no explanations, no markdown, no code blocks";
      "2. Use {input} as placeholder for input file path";
      "3. Use {output} as placeholder for output file path  ";
      "4. Always use proper codec settings for quality";
      "5. Include progress output flags when appropriate";
      "6. Handle edge cases like spaces in filenames";
      "";
      "COMMON PATTERNS:";
      "- Video conversion: ffmpeg -i {input} -c:v libx264 -crf 23 -c:a aac -b:a 192k {output}";
      "- Audio extraction: ffmpeg -i {input} -vn -c:a libmp3lame -q:a 2 {output}";
      "- Video compression: ffmpeg -i {input} -c:v libx265 -crf 28 -preset medium -c:a copy {output}";
      "- Format conversion: ffmpeg -i {input} -c copy {output}";
      "- Trim video: ffmpeg -ss START -i {input} -t DURATION -c copy {output}";
      "- Scale video: ffmpeg -i {input} -vf " ++ dq ++ "scale=WIDTH:HEIGHT" ++ dq ++ " -c:a copy {output}";
      "";
      "Generate the command for this request:" ].

(** [format!("{}\n\n{}", system_prompt, prompt)] *)
Definition full_prompt (prompt : string) : string := system_prompt ++ nl ++ nl ++ prompt.

Definition preferred_models : list string :=
  [ "deepseek-r1:1.5b"; "deepseek-r1:7b"; "deepseek-r1:14b"; "qwen2.5:3b"; "qwen2.5:7b";
    "llama3.2:3b"; "llama3.2:1b"; "llama3.1:8b"; "mistral:7b" ].

(** [s.split(':').next().unwrap_or("")]: the text before the first ':'. *)
Fixpoint before_colon (s : string) : string :=
  match s with
  | EmptyString => EmptyString
  | String c s' => if Ascii.eqb c ":" then EmptyString else String c (before_colon s')
  end.

(** The [model_to_use] chain of [find], [or_else] and [unwrap_or_else]. *)
Definition model_to_use (available_models : list OllamaModel) : string :=
  match find (fun preferred =>
                existsb (fun m => String.prefix (before_colon preferred) (om_name m))
                        available_models)
             preferred_models with
  | Some s => s
  | None =>
      match available_models with
      | m :: _ => om_name m
      | [] => "llama3.2:1b"
      end
  end.

(** [str::replace] for a non-empty pattern: matches are taken from the left
    and do not overlap; [skip] counts the characters of the match just
    replaced that are still to be passed over. *)
Fixpoint replace_go (from to : string) (skip : nat) (s : string) : string :=
  match s with
  | EmptyString => EmptyString
  | String c s' =>
      match skip with
      | S k => replace_go from to k s'
      | O =>
          if String.prefix from s
          then to ++ replace_go from to (String.length from - 1) s'
          else String c (replace_go from to 0 s')
      end
  end.

Definition replace (s from to : string) : string := replace_go from to 0 s.

(** [response.trim().replace("```bash", "").replace("```shell", "").replace("```", "").trim()] *)
Definition clean_response (response : string) : string :=
  Screenshot.trim
    (replace (replace (replace (Screenshot.trim response) "```bash" "") "```shell" "") "```" "").

Definition is_command_line (line : string) : bool :=
  let trimmed := Screenshot.trim line in
  String.prefix "ffmpeg" trimmed || String.prefix "ffprobe" trimmed.

(** The [cleaned.lines().find(...)] search and its fallback. *)
Definition extract_command (cleaned : string) : string :=
  match find is_command_line (lines cleaned) with
  | Some s => Screenshot.trim s
  | None =>
      Screenshot.trim (match lines cleaned with
                       | l :: _ => l
                       | [] => cleaned
                       end)
  end.

Section Http.

(** [StatusCode]'s [Display], e.g. "404 Not Found". *)
Variable status_display : N -> string.
(** [res.json::<OllamaListResponse>()], projected on [models]. *)
Variable parse_list_response : string -> Result (list OllamaModel) string.
(** [ollama::ollama_generate(model, prompt)], not part of this source. *)
Variable ollama_generate : string -> string -> Result string string.

(** The GET to [/api/tags]: [sent] is what [send().await] yields. *)
Definition ollama_list_models (sent : Result HttpResponse string) : Result (list OllamaModel) string :=
  match sent with
  | Err e => Err ("Failed to connect to Ollama: " ++ e)
  | Ok res =>
      if negb (is_success (http_status res))
      then Err ("Ollama API error: " ++ status_display (http_status res))
      else match parse_list_response (http_body res) with
           | Ok models => Ok models
           | Err e => Err ("Failed to parse Ollama response: " ++ e)
           end
  end.

(** The DELETE to [/api/delete]. *)
Definition ollama_delete_model (sent : Result HttpResponse string) : Result unit string :=
  match sent with
  | Err e => Err ("Failed to connect to Ollama: " ++ e)
  | Ok res =>
      if negb (is_success (http_status res))
      then Err ("Ollama API error: " ++ status_display (http_status res))
      else Ok tt
  end.

(** [generate_ffmpeg_command]; [listing] is what the GET of
    [ollama_list_models] yields. *)
Definition generate_ffmpeg_command (listing : Result HttpResponse string) (prompt : string)
  : Result string string :=
  let available_models :=
    match ollama_list_models listing with Ok ms => ms | Err _ => [] end in
  let model := model_to_use available_models in
  match ollama_generate model (full_prompt prompt) with
  | Ok response => Ok (extract_command (clean_response response))
  | Err e => Err ("Failed to generate command: " ++ e)
  end.

End Http.

End OllamaCommands.

(** * The capture commands of [screenshot/mod.rs] *)
Module ScreenshotCapture.
Import Screenshot.

(** [struct ScreenshotRegion]: [x], [y] are [i32], [width], [height] [u32]. *)
Record ScreenshotRegion := {
  x : Z;
  y : Z;
  width : N;
  height : N
}.

(** [v as u32] for an [i32] [v]: the low 32 bits. *)
Definition i32_as_u32 (v : Z) : N := Z.to_N (v mod 2 ^ 32).

(** A directory entry as [cleanup_latest_screenshot] reads it: the path and
    [metadata()] followed by [created()] (a time in ns, or an error). *)
Record DirEntry := {
  de_path : string;
  de_created : Result N string
}.

(** The [for entry in entries.flatten()] loop: a strictly later creation
    time replaces the candidate. *)
Definition latest_step (latest_file : option (string * N)) (entry : Result DirEntry string)
  : option (string * N) :=
  match entry with
  | Err _ => latest_file
  | Ok e =>
      match de_created e with
      | Err _ => latest_file
      | Ok created =>
          match latest_file with
          | Some (_, latest_time) =>
              if (latest_time <? created)%N then Some (de_path e, created) else latest_file
          | None => Some (de_path e, created)
          end
      end
  end.

Definition latest_file (entries : list (Result DirEntry string)) : option (string * N) :=
  fold_left latest_step entries None.

(** One second, in ns. *)
Definition ns_per_sec : N := 1000000000.

Section Capture.

(** [xcap::Monitor], the captured [RgbaImage] (as a [DynamicImage]) and the
    PNG bytes. *)
Variable Monitor Image Bytes : Type.
(** [Monitor::all()] *)
Variable monitor_all : Result (list Monitor) string.
(** [monitor.capture_image()] *)
Variable capture_image : Monitor -> Result Image string.
(** [DynamicImage::crop(x, y, width, height)] *)
Variable crop : Image -> N -> N -> N -> N -> Image.
(** [write_to(.., ImageFormat::Png)] *)
Variable write_png : Image -> Result Bytes string.
(** [general_purpose::STANDARD.encode] *)
Variable base64_encode : Bytes -> string.

Definition capture_screen_internal (region : option ScreenshotRegion) : Result string string :=
  match monitor_all with
  | Err e => Err ("Failed to get monitors: " ++ e)
  | Ok monitors =>
      match monitors with
      | [] => Err "No monitors found"
      | monitor :: _ =>
          match capture_image monitor with
          | Err e => Err ("Failed to capture screen: " ++ e)
          | Ok image =>
              let dynamic_image :=
                match region with
                | Some reg => crop image (i32_as_u32 (x reg)) (i32_as_u32 (y reg))
                                   (width reg) (height reg)
                | None => image
                end in
              match write_png dynamic_image with
              | Err e => Err ("Failed to encode PNG: " ++ e)
              | Ok png_bytes => Ok ("data:image/png;base64," ++ base64_encode png_bytes)
              end
          end
      end
  end.

Definition capture_fullscreen : Result ScreenshotResult string :=
  match capture_screen_internal None with
  | Ok image_data =>
      Ok {| ss_success := true; ss_image_data := Some image_data;
            ss_image_path := None; ss_error := None |}
  | Err e =>
      Ok {| ss_success := false; ss_image_data := None;
            ss_image_path := None; ss_error := Some e |}
  end.

Definition capture_window : Result ScreenshotResult string :=
  match capture_screen_internal None with
  | Ok image_data =>
      Ok {| ss_success := true; ss_image_data := Some image_data;
            ss_image_path := None; ss_error := None |}
  | Err e =>
      Ok {| ss_success := false; ss_image_data := None;
            ss_image_path := None; ss_error := Some ("Failed to capture window: " ++ e) |}
  end.

Definition capture_region (region : ScreenshotRegion) : Result ScreenshotResult string :=
  match capture_screen_internal (Some region) with
  | Ok image_data =>
      Ok {| ss_success := true; ss_image_data := Some image_data;
            ss_image_path := None; ss_error := None |}
  | Err e =>
      Ok {| ss_success := false; ss_image_data := None;
            ss_image_path := None; ss_error := Some ("Failed to capture region: " ++ e) |}
  end.

End Capture.

Section Native.

(** [cfg!(target_os = "windows")] *)
Variable windows : bool.
(** The clipboard probe of [wait_for_clipboard_image], as in [Watcher]. *)
Variable powershell : N -> Result string string.
Variable probe_ms : N -> N.

(** [capture_with_snipping_tool]: [launch] is what spawning
    [snippingtool /clip] yields; clearing the clipboard first is
    [let _ = ...] and cannot fail the command. *)
Definition capture_with_snipping_tool (launch : Result unit string)
  : Result ScreenshotResult string :=
  if windows then
    match launch with
    | Err e => Err ("Failed to launch Snipping Tool: " ++ e)
    | Ok _ => wait_for_clipboard_image powershell probe_ms
    end
  else Err "Native snipping tool only supported on Windows".

(** [capture_region_native]: [launch] is what spawning
    [cmd /C start ms-screenclip:?capturemode=rectangle] yields. *)
Definition capture_region_native (launch : Result unit string)
  : Result ScreenshotResult string :=
  if windows then
    match launch with
    | Err e => Err ("Failed to launch Screen Snipping: " ++ e)
    | Ok _ => wait_for_clipboard_image powershell probe_ms
    end
  else Err "Native region capture only supported on Windows".

End Native.

Section Cleanup.

Variable windows : bool.
(** [std::env::var("USERPROFILE")] *)
Variable user_profile : option string.
(** [Path::new(profile).join("Pictures").join("Screenshots")] *)
Variable screenshots_dir_of : string -> string.
Variable dir_exists : string -> bool.
(** [std::fs::read_dir] *)
Variable read_dir : string -> Result (list (Result DirEntry string)) string.
(** [SystemTime::now()] when [created.elapsed()] runs, in ns. *)
Variable now : N.

(** [cleanup_latest_screenshot]: the file it removes, if any (the result
    of [remove_file] is ignored). [created.elapsed()] fails for a time in
    the future. *)
Definition cleanup_latest_screenshot : option string :=
  if windows then
    match user_profile with
    | None => None
    | Some profile =>
        let screenshots_dir := screenshots_dir_of profile in
        if dir_exists screenshots_dir then
          match read_dir screenshots_dir with
          | Err _ => None
          | Ok entries =>
              match latest_file entries with
              | Some (path, created) =>
                  if (created <=? now)%N then
                    if ((now - created) / ns_per_sec <? 10)%N then Some path else None
                  else None
              | None => None
              end
          end
        else None
    end
  else None.

End Cleanup.

End ScreenshotCapture.

(** * Concrete instances of the library behaviour, for evaluating the model *)
Module Demo.

(** A JSON line parser for three sample lines of the pull protocol. *)
Definition pull_record (status : string) (total completed : option N) (error : option string)
  : Ollama.PullResponse :=
  {| Ollama.pr_status := status; Ollama.pr_digest := None; Ollama.pr_total := total;
     Ollama.pr_completed := completed; Ollama.pr_error := error |}.

Definition parse_pull (line : string) : option Ollama.PullResponse :=
  if String.eqb line "ok" then Some (pull_record "pulling" (Some 100%N) (Some 50%N) None)
  else if String.eqb line "err" then Some (pull_record "" None None (Some "pull model manifest: file does not exist"))
  else if String.eqb line "zero" then Some (pull_record "pulling" (Some 0%N) (Some 5%N) None)
  else None.

Definition emit_ok (_ : Ollama.ProgressEvent) : option string := None.

(** "ok\nok\nerr\nok\nok": five lines, the third carrying [error]. *)
Definition five_lines : string :=
  "ok" ++ nl ++ "ok" ++ nl ++ "err" ++ nl ++ "ok" ++ nl ++ "ok".

(** A file system where every candidate path exists, and one where none does. *)
Definition exists_all (_ : string) : bool := true.
Definition exists_none (_ : string) : bool := false.

Definition w0 : AudioAI.World := {| AudioAI.cancel_download := false; AudioAI.children := [] |}.

(** A helper that exits 0 after printing [out]. *)
Definition run_printing (out : string) (_ _ : string) (_ : list string)
  : Result AudioAI.Output string :=
  Ok {| AudioAI.status_success := true; AudioAI.stdout := out; AudioAI.stderr := "" |}.

(** A helper that answers each action with its own JSON document. *)
Definition run_helper (_ _ : string) (args : list string) : Result AudioAI.Output string :=
  Ok {| AudioAI.status_success := true;
        AudioAI.stdout := if String.eqb (hd "" args) "check-models" then "status-json"
                          else "download-json";
        AudioAI.stderr := "" |}.

(** An interpreter the OS refuses to start. *)
Definition run_refused (_ _ : string) (_ : list string) : Result AudioAI.Output string :=
  Err "program not found".

Definition serde_error : string := "expected value at line 1 column 1".

Definition download_ok : AudioAI.DownloadResult :=
  {| AudioAI.dr_success := true; AudioAI.dr_message := Some "Model downloaded";
     AudioAI.dr_error := None |}.

Definition parse_download (s : string) : Result AudioAI.DownloadResult string :=
  if String.eqb s "download-json" then Ok download_ok else Err serde_error.

Definition status_ok : AudioAI.ModelStatus :=
  {| AudioAI.whisper_models := ["base"]; AudioAI.diarization_installed := false;
     AudioAI.denoiser_installed := true |}.

Definition parse_status (s : string) : Result AudioAI.ModelStatus string :=
  if String.eqb s "status-json" then Ok status_ok else Err serde_error.

(** Suffix test on strings. *)
Fixpoint ends_with (suffix s : string) : bool :=
  String.eqb suffix s ||
  match s with
  | EmptyString => false
  | String _ s' => ends_with suffix s'
  end.

(** Every audio file opens and decodes. *)
Definition file_ok (_ : string) : bool := true.

(** Let the worker receive up to [n] queued commands. *)
Fixpoint run_worker (n : nat) (s : Player.System) : Player.System :=
  match n with
  | O => s
  | S n' =>
      match Player.worker_recv file_ok file_ok s with
      | Some s' => run_worker n' s'
      | None => s
      end
  end.

(** [Play(A)], [SetVolume(0.5)], [Pause], [Stop] sent to a fresh player. *)
Definition four_sent : Player.System :=
  Player.send Player.Stop (Player.send Player.Pause
    (Player.send (Player.SetVolume 0.5%float) (Player.send (Player.Play "A.mp3") Player.new_player))).

(** A player whose worker has exited. *)
Definition dead_player : Player.System :=
  {| Player.poisoned := false; Player.worker_alive := false; Player.chan := [];
     Player.sink := Player.sink0; Player.executed := []; Player.sink_log := [];
     Player.enqueued := []; Player.dropped := [] |}.

(** A PowerShell probe that finds an image from 3 s on, and one that never does. *)
Definition probe_after_3s (elapsed : N) : Result string string :=
  if N.ltb elapsed 3000 then Ok "" else Ok "iVBORw0KGgo=".
Definition probe_never (_ : N) : Result string string := Ok "".
Definition probe_cost (_ : N) : N := 200.

(** An installed model as [/api/tags] lists it. *)
Definition installed (name : string) : OllamaCommands.OllamaModel :=
  {| OllamaCommands.om_name := name; OllamaCommands.om_size := 0%N;
     OllamaCommands.om_digest := ""; OllamaCommands.om_modified_at := "";
     OllamaCommands.om_details := None |}.

Definition status_text (_ : N) : string := "503 Service Unavailable".
Definition parse_tags (_ : string) : Result (list OllamaCommands.OllamaModel) string :=
  Ok [installed "llama3.2:1b"].

(** A model reply wrapped in a Markdown code fence. *)
Definition fenced_reply : string :=
  "```bash" ++ nl ++ "ffmpeg -i {input} -vn {output}" ++ nl ++ "```".
Definition generate_fenced (_ _ : string) : Result string string := Ok fenced_reply.

Definition ffmpeg_ok : AudioAICommands.FFmpegCommandResult :=
  {| AudioAICommands.ff_success := true; AudioAICommands.ff_output := Some "done";
     AudioAICommands.ff_error := None |}.
Definition parse_ffmpeg (s : string) : Result AudioAICommands.FFmpegCommandResult string :=
  if String.eqb s "ffmpeg-json" then Ok ffmpeg_ok else Err serde_error.

(** An FFmpeg command using the loudnorm filter. *)
Definition loudnorm_command : string := "ffmpeg -i in.wav -af loudnorm out.wav".

(** A Screenshots folder: an older PNG, an unreadable entry, the newest PNG
    (5 s old at [now_ns]) and a file without a creation time. *)
Definition shot (path : string) (created : Result N string) : ScreenshotCapture.DirEntry :=
  {| ScreenshotCapture.de_path := path; ScreenshotCapture.de_created := created |}.
Definition screenshots_dir (profile : string) : string := profile ++ "/Pictures/Screenshots".
Definition dir_present (_ : string) : bool := true.
Definition read_screenshots (_ : string)
  : Result (list (Result ScreenshotCapture.DirEntry string)) string :=
  Ok [Ok (shot "a.png" (Ok 100000000000%N)); Err "access denied";
      Ok (shot "b.png" (Ok 105000000000%N)); Ok (shot "c.png" (Err "unsupported"))].
Definition now_ns : N := 110000000000.

(** A player whose sender lock is poisoned. *)
Definition poisoned_player : Player.System :=
  {| Player.poisoned := true; Player.worker_alive := true; Player.chan := [];
     Player.sink := Player.sink0; Player.executed := []; Player.sink_log := [];
     Player.enqueued := []; Player.dropped := [] |}.

(** [four_sent] after the worker has received [Play("A.mp3")]. *)
Definition after_play : Player.System :=
  match Player.worker_recv file_ok file_ok four_sent with
  | Some s => s
  | None => four_sent
  end.

(** A pull parser that only knows progress records without [error]. *)
Definition parse_ok_only (line : string) : option Ollama.PullResponse :=
  if String.eqb line "ok" then Some (pull_record "pulling" (Some 100%N) (Some 50%N) None)
  else None.

(** Two chunks: a record, a line that is not JSON and a blank line; then a record. *)
Definition clean_stream : list (Result string string) :=
  [Ok ("ok" ++ nl ++ "junk" ++ nl ++ "  "); Ok "ok"].

End Demo.

(** * Proofs: StreamingTaskRunner *)
Module OllamaProofs.
Import Ollama.

Section Props.
Variable parse : string -> option PullResponse.
Variable emit : ProgressEvent -> option string.
Variable model : string.

Lemma process_lines_app : forall l1 l2 tr,
  process_lines parse emit model (l1 ++ l2) tr =
  match process_lines parse emit model l1 tr with
  | (tr', None) => process_lines parse emit model l2 tr'
  | r => r
  end.
Proof.
  induction l1 as [|line l1 IH]; intros l2 tr; [reflexivity|].
  cbn [app process_lines].
  destruct (trim_is_empty line); [apply IH|].
  destruct (parse line) as [response|]; [|apply IH].
  destruct (pr_error response); [reflexivity|].
  destruct (emit _); [reflexivity|apply IH].
Qed.

Lemma pull_loop_app : forall s1 s2 tr,
  pull_loop parse emit model (s1 ++ s2) tr =
  match pull_loop parse emit model s1 tr with
  | (tr', Ok _) => pull_loop parse emit model s2 tr'
  | r => r
  end.
Proof.
  induction s1 as [|item s1 IH]; intros s2 tr; [reflexivity|].
  cbn [app pull_loop].
  destruct item as [chunk|e]; [|reflexivity].
  destruct (process_lines _ _ _ _ _) as [tr2 [e|]]; [reflexivity|apply IH].
Qed.

(** Every emitted event comes from a parsed, error-free record. *)
Definition events_ok (tr : Trace) : Prop :=
  forall ev, In ev (emitted tr) ->
    exists l r, In l (parsed tr) /\ parse l = Some r /\ pr_error r = None /\
                ev = progress_event model r.

(** A parsed record carrying [error] forces the outcome [o = Some error]. *)
Definition errors_end (tr : Trace) (o : option string) : Prop :=
  forall l r e, In l (parsed tr) -> parse l = Some r -> pr_error r = Some e -> o = Some e.

Lemma events_ok_parse : forall l tr, events_ok tr -> events_ok (log_parse l tr).
Proof.
  intros l tr H ev Hin. destruct (H ev Hin) as (l' & r & Hl & Hp & He & ->).
  exists l', r. cbn. rewrite in_app_iff. auto.
Qed.

Lemma process_lines_inv : forall ls tr,
  events_ok tr -> errors_end tr None ->
  let (tr', o) := process_lines parse emit model ls tr in
  events_ok tr' /\ errors_end tr' o.
Proof.
  induction ls as [|line rest IH]; intros tr Hok Hend; [split; assumption|].
  cbn [process_lines]; cbv zeta.
  destruct (trim_is_empty line); [apply IH; assumption|].
  assert (Hok1 : events_ok (log_parse line tr)) by (apply events_ok_parse; exact Hok).
  destruct (parse line) as [response|] eqn:Hp.
  - destruct (pr_error response) as [error|] eqn:Herr.
    + split; [exact Hok1|].
      intros l r e Hin Hl He. cbn in Hin. apply in_app_iff in Hin as [Hin|[<-|[]]].
      * discriminate (Hend l r e Hin Hl He).
      * rewrite Hp in Hl. injection Hl as <-. congruence.
    + assert (Hend1 : forall o, errors_end (log_parse line tr) o).
      { intros o l r e Hin Hl He. cbn in Hin. apply in_app_iff in Hin as [Hin|[<-|[]]].
        - discriminate (Hend l r e Hin Hl He).
        - rewrite Hp in Hl. injection Hl as <-. congruence. }
      destruct (emit _) as [e|].
      * split; [exact Hok1|apply Hend1].
      * apply IH; [|apply Hend1].
        intros ev Hin. cbn in Hin. apply in_app_iff in Hin as [Hin|[<-|[]]].
        -- apply (Hok1 ev). exact Hin.
        -- exists line, response. cbn. rewrite in_app_iff. cbn. auto.
  - apply IH; [exact Hok1|].
    intros l r e Hin Hl He. cbn in Hin. apply in_app_iff in Hin as [Hin|[<-|[]]].
    + exact (Hend l r e Hin Hl He).
    + congruence.
Qed.

Lemma pull_loop_inv : forall s tr,
  events_ok tr -> errors_end tr None ->
  let (tr', res) := pull_loop parse emit model s tr in
  events_ok tr' /\
  forall l r e, In l (parsed tr') -> parse l = Some r -> pr_error r = Some e -> res = Err e.
Proof.
  induction s as [|item rest IH]; intros tr Hok Hend; cbn [pull_loop].
  - split; [exact Hok|]. intros l r e Hin Hl He. discriminate (Hend l r e Hin Hl He).
  - assert (Hok1 : events_ok (log_pull tr)) by exact Hok.
    assert (Hend1 : errors_end (log_pull tr) None) by exact Hend.
    destruct item as [chunk|e0].
    + pose proof (process_lines_inv (lines chunk) (log_pull tr) Hok1 Hend1) as Hpl.
      destruct (process_lines _ _ _ _ _) as [tr2 [e|]].
      * destruct Hpl as [Hok2 Hend2]. split; [exact Hok2|].
        intros l r e' Hin Hl He. specialize (Hend2 l r e' Hin Hl He). congruence.
      * destruct Hpl as [Hok2 Hend2]. apply IH; assumption.
    + split; [exact Hok1|]. intros l r e Hin Hl He. discriminate (Hend l r e Hin Hl He).
Qed.

(** The whole command: provenance of emitted events and terminal errors. *)
Lemma pull_model_inv : forall response,
  let (tr, res) := ollama_pull_model parse emit model response in
  events_ok tr /\
  forall l r e, In l (parsed tr) -> parse l = Some r -> pr_error r = Some e -> res = Err e.
Proof.
  intros [stream|e]; cbn [ollama_pull_model].
  - apply pull_loop_inv; [intros ev []|intros l r e []].
  - split; [intros ev []|intros l r e' []].
Qed.

End Props.

(** C1: once a parsed record carries an [error] field, the runner returns
    that error as the terminal failure of the command and stops: no further
    line of the same chunk or of a later chunk is parsed or emitted, and no
    further chunk is pulled. (The code stops on any [Some error], so in
    particular on a non-empty one.) *)
Theorem pull_stops_at_error_record :
  forall parse emit model pre chunk l1 line l2 post tr_pre tr1 response error,
    pull_loop parse emit model pre trace0 = (tr_pre, Ok tt) ->
    lines chunk = (l1 ++ line :: l2)%list ->
    process_lines parse emit model l1 (log_pull tr_pre) = (tr1, None) ->
    trim_is_empty line = false ->
    parse line = Some response ->
    pr_error response = Some error ->
    ollama_pull_model parse emit model (Ok (pre ++ Ok chunk :: post)%list) =
      (log_parse line tr1, Err error).
Proof.
  intros parse emit model pre chunk l1 line l2 post tr_pre tr1 response error
         Hpre Hlines Hl1 Htrim Hparse Herr.
  cbn [ollama_pull_model]. rewrite pull_loop_app, Hpre. cbn [pull_loop].
  rewrite Hlines, process_lines_app, Hl1. cbn [process_lines].
  rewrite Htrim, Hparse, Herr. reflexivity.
Qed.

(** Witness for C1: the five-line stream whose third line is an error
    record, followed by another chunk. *)
Lemma pull_stops_at_error_record_witness :
  exists tr,
    ollama_pull_model Demo.parse_pull Demo.emit_ok "llama3"
      (Ok [Ok Demo.five_lines; Ok "ok"]) =
      (tr, Err "pull model manifest: file does not exist") /\
    parsed tr = ["ok"; "ok"; "err"] /\ List.length (emitted tr) = 2 /\ pulled tr = 1.
Proof.
  eexists. split.
  - eapply (pull_stops_at_error_record Demo.parse_pull Demo.emit_ok "llama3"
              [] Demo.five_lines ["ok"; "ok"] "err" ["ok"; "ok"] [Ok "ok"]).
    + reflexivity.
    + vm_compute. reflexivity.
    + reflexivity.
    + reflexivity.
    + reflexivity.
    + reflexivity.
  - vm_compute. split; [reflexivity|split; reflexivity].
Defined.

(** The progress fields of an emitted event, as the code computes them. *)
Definition progress_fields_spec (r : PullResponse) (d : DownloadProgress) : Prop :=
  dp_status d = pr_status r /\
  match pr_completed r, pr_total r with
  | Some c, Some t =>
      if (0 <? t)%N
      then dp_progress d = ((u64_to_f64 c / u64_to_f64 t) * 100.0)%float /\
           dp_downloaded_bytes d = c /\ dp_total_bytes d = t
      else dp_progress d = 0.0%float /\ dp_downloaded_bytes d = 0%N /\ dp_total_bytes d = 0%N
  | _, _ => dp_progress d = 0.0%float /\ dp_downloaded_bytes d = 0%N /\ dp_total_bytes d = 0%N
  end.

Lemma progress_event_fields : forall model r,
  progress_fields_spec r (ev_data (progress_event model r)) /\
  dp_error (ev_data (progress_event model r)) = None /\
  ev_model (progress_event model r) = model.
Proof.
  intros model r. unfold progress_event, progress_fields_spec, record_progress.
  destruct (pr_completed r) as [c|], (pr_total r) as [t|]; cbn;
    try (destruct (0 <? t)%N); cbn; repeat split.
Qed.

(** C8 (counterexample): with [completed = 5] and [total = 0] the record is
    forwarded with progress 0, not [5 / 0 * 100] (which is +inf in f64). *)
Lemma forwarded_progress_total_zero :
  let (tr, _) := ollama_pull_model Demo.parse_pull Demo.emit_ok "llama3" (Ok [Ok "zero"]) in
  exists ev r,
    In ev (emitted tr) /\ ev = progress_event "llama3" r /\ pr_error r = None /\
    pr_completed r = Some 5%N /\ pr_total r = Some 0%N /\
    dp_progress (ev_data ev) <> ((u64_to_f64 5 / u64_to_f64 0) * 100.0)%float.
Proof.
  set (zero_r := Demo.pull_record "pulling" (Some 0%N) (Some 5%N) None).
  assert (Hrun : ollama_pull_model Demo.parse_pull Demo.emit_ok "llama3" (Ok [Ok "zero"]) =
                 ({| emitted := [progress_event "llama3" zero_r]; parsed := ["zero"];
                     pulled := 1 |}, Ok tt)) by reflexivity.
  rewrite Hrun. exists (progress_event "llama3" zero_r), zero_r.
  split; [left; reflexivity|].
  split; [reflexivity|]. split; [reflexivity|]. split; [reflexivity|]. split; [reflexivity|].
  intro H. apply (f_equal (fun x => PrimFloat.eqb x 0.0%float)) in H.
  vm_compute in H. discriminate H.
Qed.

(** C8 (amended): every forwarded event reports the record's status, and
    progress [completed / total * 100] with the byte counts when both
    [completed] and [total] are present and [total > 0]; otherwise (either
    absent, or [total = 0]) it reports progress 0 and 0 bytes. *)
Theorem forwarded_progress :
  forall parse emit model response,
  let (tr, _) := ollama_pull_model parse emit model response in
  forall ev, In ev (emitted tr) ->
    exists l r, In l (parsed tr) /\ parse l = Some r /\ pr_error r = None /\
                ev = progress_event model r /\ progress_fields_spec r (ev_data ev).
Proof.
  intros parse emit model response.
  pose proof (pull_model_inv parse emit model response) as Hinv.
  destruct (ollama_pull_model parse emit model response) as [tr res].
  destruct Hinv as [Hok _]. intros ev Hin.
  destruct (Hok ev Hin) as (l & r & Hl & Hp & He & ->).
  exists l, r. repeat split; try assumption.
  - apply progress_event_fields.
  - apply progress_event_fields.
Qed.

(** C10: every event emitted to the window carries [error = None] and is
    built from a parsed record without [error]; a parsed record that
    carries [error] makes the whole command return [Err error]. *)
Theorem emitted_events_carry_no_error :
  forall parse emit model response,
  let (tr, res) := ollama_pull_model parse emit model response in
  (forall ev, In ev (emitted tr) ->
     dp_error (ev_data ev) = None /\
     exists l r, In l (parsed tr) /\ parse l = Some r /\ pr_error r = None /\
                 ev = progress_event model r) /\
  (forall l r e, In l (parsed tr) -> parse l = Some r -> pr_error r = Some e -> res = Err e).
Proof.
  intros parse emit model response.
  pose proof (pull_model_inv parse emit model response) as Hinv.
  destruct (ollama_pull_model parse emit model response) as [tr res].
  destruct Hinv as [Hok Hend]. split; [|exact Hend].
  intros ev Hin. split.
  - destruct (Hok ev Hin) as (l & r & _ & _ & _ & ->). apply progress_event_fields.
  - exact (Hok ev Hin).
Qed.

End OllamaProofs.

(** * Proofs: ExternalProcessInvoker and CancellationToken *)
Module AudioAIProofs.
Import AudioAI.

Section Props.
Variable path_exists : string -> bool.
Variable run_child : string -> string -> list string -> Result Output string.

Lemma first_existing_none : forall ps,
  Forall (fun p => path_exists p = false) ps -> first_existing path_exists ps = None.
Proof.
  induction 1 as [|p ps Hp _ IH]; cbn; [reflexivity|]. rewrite Hp. exact IH.
Qed.

(** The invoker on a found script: the child is recorded, and its exit
    status selects between stdout and the "Command failed" message. *)
Lemma run_python_found : forall args w script,
  get_audio_ai_script_path path_exists = Ok script ->
  run_python_audio_command path_exists run_child args w =
  match run_child (get_python_executable path_exists) script args with
  | Err e => (w, Err ("Failed to execute command: " ++ e))
  | Ok out =>
      let w' := {| cancel_download := cancel_download w;
                   children := (children w ++ [(get_python_executable path_exists, script, args)])%list |} in
      if status_success out then (w', Ok (stdout out))
      else (w', Err ("Command failed: " ++ stderr out ++ nl ++ stdout out))
  end.
Proof.
  intros args w script Hs. unfold run_python_audio_command, bind, lift, ret, fail.
  rewrite Hs. unfold command_output.
  destruct (run_child _ script args) as [out|e]; [|reflexivity].
  destruct (status_success out); reflexivity.
Qed.

(** The invoker neither reads nor writes the cancel flag. *)
Lemma run_python_ignores_flag : forall args w b,
  run_python_audio_command path_exists run_child args (fst (store_cancel b w)) =
  (fst (store_cancel b (fst (run_python_audio_command path_exists run_child args w))),
   snd (run_python_audio_command path_exists run_child args w)).
Proof.
  intros args w b. unfold run_python_audio_command, bind, lift, ret, fail, command_output.
  destruct (get_audio_ai_script_path path_exists) as [script|e]; [|reflexivity].
  destruct (run_child _ script args) as [out|e]; [|reflexivity].
  destruct (status_success out); reflexivity.
Qed.

End Props.

Lemma ends_with_unfold : forall suffix s,
  Demo.ends_with suffix s =
  String.eqb suffix s ||
  match s with EmptyString => false | String _ s' => Demo.ends_with suffix s' end.
Proof. intros suffix []; reflexivity. Qed.

Lemma ends_with_app : forall ind s, Demo.ends_with s (ind ++ s) = true.
Proof.
  induction ind as [|a ind IH]; intros s; rewrite ends_with_unfold.
  - rewrite String.eqb_refl. reflexivity.
  - cbn [append]. rewrite IH. apply orb_true_r.
Qed.

(** C2 (counterexample): after [cancel_model_download] has stored [true],
    [download_whisper_model] still starts the helper process: it resets the
    flag and no executor reads it. *)
Lemma cancel_then_download_spawns :
  let (w1, r1) := cancel_model_download Demo.w0 in
  r1 = Ok tt /\ cancel_download w1 = true /\
  let (w2, r2) := download_whisper_model Demo.exists_all (Demo.run_printing "download-json")
                    Demo.parse_download "base" w1 in
  List.length (children w2) = 1 /\ r2 = Ok Demo.download_ok.
Proof. vm_compute. repeat split. Qed.

(** C2 (code bug): [cancel_model_download] only stores [true] in
    [CANCEL_DOWNLOAD] and starts or stops nothing, and no code reads the
    flag: every download command first resets it, so its run (children
    created and result) is the same whether or not a cancel came before,
    and the helper invocation is unaffected by the flag being set while it
    runs. The cancellation the flag was declared for never takes effect. *)
Theorem cancel_flag_never_consulted :
  forall path_exists run_child parse_DownloadResult model_name w,
    cancel_model_download w =
      ({| cancel_download := true; children := children w |}, Ok tt) /\
    download_whisper_model path_exists run_child parse_DownloadResult model_name
      (fst (cancel_model_download w)) =
    download_whisper_model path_exists run_child parse_DownloadResult model_name w /\
    download_diarization_model path_exists run_child parse_DownloadResult
      (fst (cancel_model_download w)) =
    download_diarization_model path_exists run_child parse_DownloadResult w /\
    download_denoiser_model path_exists run_child parse_DownloadResult
      (fst (cancel_model_download w)) =
    download_denoiser_model path_exists run_child parse_DownloadResult w /\
    (forall args b,
      run_python_audio_command path_exists run_child args (fst (store_cancel b w)) =
      (fst (store_cancel b (fst (run_python_audio_command path_exists run_child args w))),
       snd (run_python_audio_command path_exists run_child args w))).
Proof.
  intros. repeat split; try reflexivity.
  intros args b. apply run_python_ignores_flag.
Qed.

(** A helper command [cmd] that runs the helper with [args] and reads its
    stdout with [parse]: when the script is found and the helper exits with
    status 0 printing what [parse] reads as [v], the command returns [Ok v]. *)
Definition returns_parsed {A} (path_exists : string -> bool)
  (run_child : string -> string -> list string -> Result Output string)
  (cmd : M A) (args : list string) (parse : string -> Result A string) : Prop :=
  forall w script out v,
    get_audio_ai_script_path path_exists = Ok script ->
    run_child (get_python_executable path_exists) script args = Ok out ->
    status_success out = true ->
    parse (stdout out) = Ok v ->
    snd (cmd w) = Ok v.

(** The same command when [parse] rejects the stdout with error [e]: the
    command returns [Err (prefix ++ e)]. *)
Definition reports_parse_failure {A} (path_exists : string -> bool)
  (run_child : string -> string -> list string -> Result Output string)
  (cmd : M A) (args : list string) (parse : string -> Result A string) (prefix : string) : Prop :=
  forall w script out e,
    get_audio_ai_script_path path_exists = Ok script ->
    run_child (get_python_executable path_exists) script args = Ok out ->
    status_success out = true ->
    parse (stdout out) = Err e ->
    snd (cmd w) = Err (prefix ++ e).

(** The common shape of the helper commands: run the helper, then
    [serde_json::from_str(&output).map_err(...)]. *)
Lemma run_then_parse : forall path_exists run_child args {A} (parse : string -> Result A string) f
                              w script out,
  get_audio_ai_script_path path_exists = Ok script ->
  run_child (get_python_executable path_exists) script args = Ok out ->
  status_success out = true ->
  snd ((output <- run_python_audio_command path_exists run_child args ;; lift (parse output) f) w) =
  match parse (stdout out) with Ok v => Ok v | Err e => Err (f e) end.
Proof.
  intros pe rc args A parse f w script out Hs Hr Hst. unfold bind at 1.
  rewrite (run_python_found pe rc args w script Hs), Hr, Hst.
  unfold lift. destruct (parse (stdout out)); reflexivity.
Qed.

Lemma store_then_snd : forall b {A} (m : M A) w,
  snd (bind (store_cancel b) (fun _ => m) w) = snd (m {| cancel_download := b; children := children w |}).
Proof. reflexivity. Qed.

Ltac helper_result :=
  unfold check_ai_models, download_whisper_model, download_diarization_model,
    download_denoiser_model, transcribe_audio, AudioAICommands.debug_python_env,
    AudioAICommands.transcribe_with_diarization, AudioAICommands.export_speaker_srt,
    AudioAICommands.export_all_speakers_srt, AudioAICommands.extract_speaker_audio,
    AudioAICommands.remove_background_noise, AudioAICommands.denoise_audio_ffmpeg,
    AudioAICommands.run_ffmpeg_command;
  cbv zeta;
  repeat match goal with H : existsb _ _ = false |- _ => rewrite H end;
  rewrite ?store_then_snd;
  match goal with
  | Hs : get_audio_ai_script_path _ = Ok _,
    Hr : _ (get_python_executable _) _ _ = Ok _,
    Hst : status_success _ = true,
    Hp : _ (stdout _) = _ |- _ =>
      rewrite (run_then_parse _ _ _ _ _ _ _ _ Hs Hr Hst), Hp; reflexivity
  end.

(** C4: for every helper command of [audio_ai/mod.rs] (each a TaskRequest
    with its action and arguments), when the helper script is found and the
    helper exits with status 0 printing a JSON document that the command's
    result schema reads as [v], the command returns exactly [Ok v]: stdout
    reaches [serde_json] unchanged. [run_ffmpeg_command] reaches the helper
    only for a command free of the forbidden patterns. *)
Theorem helper_json_result_returned :
  forall path_exists run_child,
    (forall parse_ModelStatus,
       returns_parsed path_exists run_child (check_ai_models path_exists run_child parse_ModelStatus)
         ["check-models"] parse_ModelStatus) /\
    (forall parse_DownloadResult model_name,
       returns_parsed path_exists run_child
         (download_whisper_model path_exists run_child parse_DownloadResult model_name)
         ["download-whisper"; model_name] parse_DownloadResult) /\
    (forall parse_DownloadResult,
       returns_parsed path_exists run_child
         (download_diarization_model path_exists run_child parse_DownloadResult)
         ["download-diarization"] parse_DownloadResult) /\
    (forall parse_DownloadResult,
       returns_parsed path_exists run_child
         (download_denoiser_model path_exists run_child parse_DownloadResult)
         ["download-denoiser"] parse_DownloadResult) /\
    (forall parse_TranscriptionResult transcribe_params audio_path model_name language output_format,
       returns_parsed path_exists run_child
         (transcribe_audio path_exists run_child parse_TranscriptionResult transcribe_params
            audio_path model_name language output_format)
         ["transcribe"; audio_path;
          transcribe_params (unwrap_or model_name "base") (unwrap_or output_format "srt") language]
         parse_TranscriptionResult) /\
    (forall parse_Value,
       returns_parsed path_exists run_child
         (AudioAICommands.debug_python_env path_exists run_child parse_Value)
         ["debug-env"] parse_Value) /\
    (forall parse_DiarizationResult diarize_params audio_path model_name language num_speakers max_speakers,
       returns_parsed path_exists run_child
         (AudioAICommands.transcribe_with_diarization path_exists run_child parse_DiarizationResult
            diarize_params audio_path model_name language num_speakers max_speakers)
         ["transcribe-diarize"; audio_path;
          diarize_params (unwrap_or model_name "base") language num_speakers max_speakers]
         parse_DiarizationResult) /\
    (forall parse_ExportResult export_speaker_params diarization_result speaker output_path,
       returns_parsed path_exists run_child
         (AudioAICommands.export_speaker_srt path_exists run_child parse_ExportResult
            export_speaker_params diarization_result speaker output_path)
         ["extract-speaker"; ""; export_speaker_params diarization_result speaker output_path]
         parse_ExportResult) /\
    (forall parse_ExportResult export_all_params diarization_result output_dir base_name,
       returns_parsed path_exists run_child
         (AudioAICommands.export_all_speakers_srt path_exists run_child parse_ExportResult
            export_all_params diarization_result output_dir base_name)
         ["extract-speaker"; ""; export_all_params diarization_result output_dir base_name]
         parse_ExportResult) /\
    (forall parse_ExportResult extract_params audio_path diarization_result speaker output_path per_sentence,
       returns_parsed path_exists run_child
         (AudioAICommands.extract_speaker_audio path_exists run_child parse_ExportResult
            extract_params audio_path diarization_result speaker output_path per_sentence)
         ["extract-speaker"; audio_path;
          extract_params diarization_result speaker output_path
            (match per_sentence with Some b => b | None => false end)]
         parse_ExportResult) /\
    (forall parse_DenoiseResult audio_path output_path method,
       returns_parsed path_exists run_child
         (AudioAICommands.remove_background_noise path_exists run_child parse_DenoiseResult
            audio_path output_path method)
         ["denoise"; audio_path; output_path; unwrap_or method "denoiser"] parse_DenoiseResult) /\
    (forall parse_DenoiseResult input_path output_dir method strength,
       returns_parsed path_exists run_child
         (AudioAICommands.denoise_audio_ffmpeg path_exists run_child parse_DenoiseResult
            input_path output_dir method strength)
         ["denoise"; input_path; output_dir; unwrap_or method "ffmpeg"] parse_DenoiseResult) /\
    (forall parse_FFmpegCommandResult command,
       existsb (AudioAICommands.contains (AudioAICommands.to_lowercase command))
         AudioAICommands.dangerous_patterns = false ->
       returns_parsed path_exists run_child
         (AudioAICommands.run_ffmpeg_command path_exists run_child parse_FFmpegCommandResult command)
         ["--action"; "run_ffmpeg"; "--command"; command] parse_FFmpegCommandResult).
Proof.
  intros pe rc. unfold returns_parsed.
  repeat split; intros; helper_result.
Qed.

(** Witness for C4. *)
Lemma helper_json_result_returned_witness :
  snd (check_ai_models Demo.exists_all Demo.run_helper Demo.parse_status Demo.w0)
    = Ok Demo.status_ok /\
  snd (download_whisper_model Demo.exists_all Demo.run_helper Demo.parse_download "base" Demo.w0)
    = Ok Demo.download_ok.
Proof.
  destruct (helper_json_result_returned Demo.exists_all Demo.run_helper) as (Hc & Hd & _).
  split.
  - apply (Hc Demo.parse_status Demo.w0 "../python_backend/audio_ai_helper.py"
             {| status_success := true; stdout := "status-json"; stderr := "" |});
      vm_compute; reflexivity.
  - apply (Hd Demo.parse_download "base" Demo.w0 "../python_backend/audio_ai_helper.py"
             {| status_success := true; stdout := "download-json"; stderr := "" |});
      vm_compute; reflexivity.
Defined.

(** C5: with no candidate script path present, the invoker returns
    "Audio AI helper script not found" at once and the world (in particular
    its list of created children) is unchanged; when the process cannot be
    created, it returns "Failed to execute command: ..." at once, again with
    no child recorded; neither message can be mistaken for the
    "Command failed: ..." message of a child that ran and exited non-zero. *)
Theorem spawn_failure_short_circuits :
  forall path_exists run_child args w,
    (Forall (fun p => path_exists p = false) script_paths ->
       run_python_audio_command path_exists run_child args w =
         (w, Err "Audio AI helper script not found")) /\
    (forall script e,
       get_audio_ai_script_path path_exists = Ok script ->
       run_child (get_python_executable path_exists) script args = Err e ->
       run_python_audio_command path_exists run_child args w =
         (w, Err ("Failed to execute command: " ++ e))) /\
    (forall e err out,
       "Audio AI helper script not found" <> "Command failed: " ++ err ++ nl ++ out /\
       "Failed to execute command: " ++ e <> "Command failed: " ++ err ++ nl ++ out).
Proof.
  intros path_exists run_child args w. split; [|split].
  - intros Hnone. unfold run_python_audio_command, bind, lift.
    unfold get_audio_ai_script_path. rewrite (first_existing_none path_exists _ Hnone).
    reflexivity.
  - intros script e Hs He. rewrite (run_python_found path_exists run_child args w script Hs), He.
    reflexivity.
  - intros e err out. split; discriminate.
Qed.

(** Witness for C5. *)
Lemma spawn_failure_short_circuits_witness :
  run_python_audio_command Demo.exists_none Demo.run_refused ["check-models"] Demo.w0 =
    (Demo.w0, Err "Audio AI helper script not found") /\
  run_python_audio_command Demo.exists_all Demo.run_refused ["check-models"] Demo.w0 =
    (Demo.w0, Err ("Failed to execute command: " ++ "program not found")).
Proof.
  pose proof (spawn_failure_short_circuits Demo.exists_none Demo.run_refused ["check-models"] Demo.w0)
    as [H1 _].
  pose proof (spawn_failure_short_circuits Demo.exists_all Demo.run_refused ["check-models"] Demo.w0)
    as [_ [H2 _]].
  split.
  - apply H1. repeat constructor.
  - apply (H2 "../python_backend/audio_ai_helper.py"); reflexivity.
Defined.

(** C6 (counterexample): the helper exits 0 and prints "garbage"; the
    caller's error is "Failed to parse download result: " followed by the
    serde error text, and the raw stdout does not end it. *)
Lemma parse_failure_message_omits_stdout :
  snd (download_whisper_model Demo.exists_all (Demo.run_printing "garbage")
         Demo.parse_download "base" Demo.w0) =
    Err ("Failed to parse download result: " ++ Demo.serde_error) /\
  ~ (exists indication,
       "Failed to parse download result: " ++ Demo.serde_error = indication ++ "garbage").
Proof.
  split; [vm_compute; reflexivity|].
  intros [indication H].
  pose proof (ends_with_app indication "garbage") as Hend.
  rewrite <- H in Hend. vm_compute in Hend. discriminate Hend.
Qed.

(** C6 (amended): for every helper command of [audio_ai/mod.rs], when the
    helper exits 0 but the command's result schema rejects its stdout, the
    caller gets [Err] made of the command's fixed "Failed to parse ...: "
    prefix followed by the parser's own error text only (no raw stdout). *)
Theorem parse_failure_message :
  forall path_exists run_child,
    (forall parse_ModelStatus,
       reports_parse_failure path_exists run_child
         (check_ai_models path_exists run_child parse_ModelStatus)
         ["check-models"] parse_ModelStatus "Failed to parse model status: ") /\
    (forall parse_DownloadResult model_name,
       reports_parse_failure path_exists run_child
         (download_whisper_model path_exists run_child parse_DownloadResult model_name)
         ["download-whisper"; model_name] parse_DownloadResult "Failed to parse download result: ") /\
    (forall parse_DownloadResult,
       reports_parse_failure path_exists run_child
         (download_diarization_model path_exists run_child parse_DownloadResult)
         ["download-diarization"] parse_DownloadResult "Failed to parse download result: ") /\
    (forall parse_DownloadResult,
       reports_parse_failure path_exists run_child
         (download_denoiser_model path_exists run_child parse_DownloadResult)
         ["download-denoiser"] parse_DownloadResult "Failed to parse download result: ") /\
    (forall parse_TranscriptionResult transcribe_params audio_path model_name language output_format,
       reports_parse_failure path_exists run_child
         (transcribe_audio path_exists run_child parse_TranscriptionResult transcribe_params
            audio_path model_name language output_format)
         ["transcribe"; audio_path;
          transcribe_params (unwrap_or model_name "base") (unwrap_or output_format "srt") language]
         parse_TranscriptionResult "Failed to parse transcription result: ") /\
    (forall parse_Value,
       reports_parse_failure path_exists run_child
         (AudioAICommands.debug_python_env path_exists run_child parse_Value)
         ["debug-env"] parse_Value "Failed to parse debug result: ") /\
    (forall parse_DiarizationResult diarize_params audio_path model_name language num_speakers max_speakers,
       reports_parse_failure path_exists run_child
         (AudioAICommands.transcribe_with_diarization path_exists run_child parse_DiarizationResult
            diarize_params audio_path model_name language num_speakers max_speakers)
         ["transcribe-diarize"; audio_path;
          diarize_params (unwrap_or model_name "base") language num_speakers max_speakers]
         parse_DiarizationResult "Failed to parse diarization result: ") /\
    (forall parse_ExportResult export_speaker_params diarization_result speaker output_path,
       reports_parse_failure path_exists run_child
         (AudioAICommands.export_speaker_srt path_exists run_child parse_ExportResult
            export_speaker_params diarization_result speaker output_path)
         ["extract-speaker"; ""; export_speaker_params diarization_result speaker output_path]
         parse_ExportResult "Failed to parse export result: ") /\
    (forall parse_ExportResult export_all_params diarization_result output_dir base_name,
       reports_parse_failure path_exists run_child
         (AudioAICommands.export_all_speakers_srt path_exists run_child parse_ExportResult
            export_all_params diarization_result output_dir base_name)
         ["extract-speaker"; ""; export_all_params diarization_result output_dir base_name]
         parse_ExportResult "Failed to parse export result: ") /\
    (forall parse_ExportResult extract_params audio_path diarization_result speaker output_path per_sentence,
       reports_parse_failure path_exists run_child
         (AudioAICommands.extract_speaker_audio path_exists run_child parse_ExportResult
            extract_params audio_path diarization_result speaker output_path per_sentence)
         ["extract-speaker"; audio_path;
          extract_params diarization_result speaker output_path
            (match per_sentence with Some b => b | None => false end)]
         parse_ExportResult "Failed to parse export result: ") /\
    (forall parse_DenoiseResult audio_path output_path method,
       reports_parse_failure path_exists run_child
         (AudioAICommands.remove_background_noise path_exists run_child parse_DenoiseResult
            audio_path output_path method)
         ["denoise"; audio_path; output_path; unwrap_or method "denoiser"] parse_DenoiseResult
         "Failed to parse denoise result: ") /\
    (forall parse_DenoiseResult input_path output_dir method strength,
       reports_parse_failure path_exists run_child
         (AudioAICommands.denoise_audio_ffmpeg path_exists run_child parse_DenoiseResult
            input_path output_dir method strength)
         ["denoise"; input_path; output_dir; unwrap_or method "ffmpeg"] parse_DenoiseResult
         "Failed to parse denoise result: ") /\
    (forall parse_FFmpegCommandResult command,
       existsb (AudioAICommands.contains (AudioAICommands.to_lowercase command))
         AudioAICommands.dangerous_patterns = false ->
       reports_parse_failure path_exists run_child
         (AudioAICommands.run_ffmpeg_command path_exists run_child parse_FFmpegCommandResult command)
         ["--action"; "run_ffmpeg"; "--command"; command] parse_FFmpegCommandResult
         "Failed to parse FFmpeg result: ").
Proof.
  intros pe rc. unfold reports_parse_failure.
  repeat split; intros; helper_result.
Qed.

(** Witness for C6 (amended). *)
Lemma parse_failure_message_witness :
  snd (download_whisper_model Demo.exists_all (Demo.run_printing "garbage")
         Demo.parse_download "base" Demo.w0) =
    Err ("Failed to parse download result: " ++ Demo.serde_error) /\
  snd (transcribe_audio Demo.exists_all (Demo.run_printing "garbage")
         (fun _ => Err Demo.serde_error) (fun _ _ _ => "{}")
         "a.wav" None None None Demo.w0) =
    Err ("Failed to parse transcription result: " ++ Demo.serde_error).
Proof.
  destruct (parse_failure_message Demo.exists_all (Demo.run_printing "garbage"))
    as (_ & Hd & _ & _ & Ht & _).
  split.
  - apply (Hd Demo.parse_download "base" Demo.w0 "../python_backend/audio_ai_helper.py"
             {| status_success := true; stdout := "garbage"; stderr := "" |});
      vm_compute; reflexivity.
  - apply (Ht (fun _ => Err Demo.serde_error) (fun _ _ _ => "{}") "a.wav" None None None Demo.w0
             "../python_backend/audio_ai_helper.py"
             {| status_success := true; stdout := "garbage"; stderr := "" |});
      vm_compute; reflexivity.
Defined.

End AudioAIProofs.

(** * Proofs: PersistentWorkerThread and WorkerChannel *)
Module PlayerProofs.
Import Player.

Section Props.
Variable file_open_ok : string -> bool.
Variable decoder_ok : string -> bool.

(** The channel invariant: accepted commands are, in order, those the
    worker has executed, then those lost when it exited, then those still
    queued; the sink has seen exactly the executed commands' calls, command
    by command. *)
Definition chan_inv (s : System) : Prop :=
  (map fst (executed s) ++ dropped s ++ chan s = enqueued s)%list /\
  sink_log s = List.concat (map snd (executed s)) /\
  (worker_alive s = true -> dropped s = []) /\
  (worker_alive s = false -> chan s = []).

Lemma chan_inv_new : chan_inv new_player.
Proof. repeat split; discriminate. Qed.

Lemma chan_inv_step : forall s s',
  step file_open_ok decoder_ok s s' -> chan_inv s -> chan_inv s'.
Proof.
  intros s s' Hstep Hinv.
  destruct Hstep as [s command|s s' H|s src rest Hsrc|s|s];
    destruct Hinv as (Horder & Hlog & Halive & Hdead); unfold chan_inv; cbn.
  - (* send *)
    unfold send. destruct (poisoned s); [repeat split; assumption|].
    destruct (worker_alive s) eqn:Ha.
    + cbn. repeat split.
      * rewrite <- Horder, (Halive eq_refl). rewrite !app_assoc. reflexivity.
      * exact Hlog.
      * intros _. exact (Halive eq_refl).
      * intros Hf. discriminate Hf.
    + repeat split; [exact Horder|exact Hlog| |].
      * intros Ht. rewrite Ha in Ht. discriminate Ht.
      * intros _. exact (Hdead eq_refl).
  - (* recv *)
    unfold worker_recv in H. destruct (worker_alive s) eqn:Ha; [|discriminate H].
    destruct (chan s) as [|command rest] eqn:Hc; [discriminate H|].
    injection H as <-. cbn. repeat split.
    + rewrite <- Horder, (Halive eq_refl), map_app. cbn. rewrite <- app_assoc. reflexivity.
    + rewrite Hlog, map_app, concat_app. cbn. rewrite app_nil_r. reflexivity.
    + intros _. exact (Halive eq_refl).
    + intros Hf. discriminate Hf.
  - (* a source finishes *)
    repeat split; assumption.
  - (* worker exit *)
    repeat split.
    + rewrite <- Horder, app_nil_r, app_assoc. reflexivity.
    + exact Hlog.
    + intros Hf. discriminate Hf.
  - (* poisoned lock *)
    repeat split; assumption.
Qed.

Lemma reachable_chan_inv : forall s, reachable file_open_ok decoder_ok s -> chan_inv s.
Proof.
  induction 1 as [|s s' _ IH Hstep]; [apply chan_inv_new|].
  exact (chan_inv_step s s' Hstep IH).
Qed.

End Props.

Lemma reachable_send : forall fo dok s command,
  reachable fo dok s -> reachable fo dok (send command s).
Proof. intros. eapply reach_step; [eassumption|apply step_send]. Qed.

Lemma reachable_run_worker : forall n s,
  reachable Demo.file_ok Demo.file_ok s -> reachable Demo.file_ok Demo.file_ok (Demo.run_worker n s).
Proof.
  induction n as [|n IH]; intros s Hs; cbn; [exact Hs|].
  destruct (worker_recv _ _ s) as [s'|] eqn:Hr; [|exact Hs].
  apply IH. eapply reach_step; [exact Hs|]. apply step_recv. exact Hr.
Qed.

(** C3: in every reachable state, under any interleaving of producers,
    worker receives, playback progress, worker exit and lock poisoning, the
    worker has executed a prefix of the accepted commands in acceptance
    order (all of them but those still queued while it runs), and the sink
    has observed exactly the concatenation of each executed command's calls,
    command after command. *)
Theorem worker_executes_in_submission_order :
  forall file_open_ok decoder_ok s,
    reachable file_open_ok decoder_ok s ->
    (exists rest, map fst (executed s) ++ rest = enqueued s)%list /\
    (worker_alive s = true -> map fst (executed s) ++ chan s = enqueued s)%list /\
    sink_log s = List.concat (map snd (executed s)).
Proof.
  intros file_open_ok decoder_ok s Hs.
  destruct (reachable_chan_inv file_open_ok decoder_ok s Hs) as (Horder & Hlog & Halive & _).
  split; [|split; [|exact Hlog]].
  - exists (dropped s ++ chan s)%list. exact Horder.
  - intros Ha. rewrite (Halive Ha) in Horder. exact Horder.
Qed.

(** The spec's sample: [Play(A)], [SetVolume(0.5)], [Pause], [Stop] reach
    the sink as exactly this call sequence. *)
Example four_commands_sink_log :
  sink_log (Demo.run_worker 4 Demo.four_sent) =
    [SinkAppend "A.mp3"; SinkPlay; SinkSetVolume 0.5%float; SinkPause; SinkStop].
Proof. vm_compute. reflexivity. Qed.

(** Witness for C3: the state after sending the four commands and letting
    the worker receive them. *)
Lemma worker_executes_in_submission_order_witness :
  let s := Demo.run_worker 4 Demo.four_sent in
  reachable Demo.file_ok Demo.file_ok s /\
  (map fst (executed s) ++ chan s = enqueued s)%list /\
  sink_log s = List.concat (map snd (executed s)).
Proof.
  intros s.
  assert (Hr : reachable Demo.file_ok Demo.file_ok s).
  { apply reachable_run_worker. unfold Demo.four_sent.
    repeat apply reachable_send. apply reach_new. }
  destruct (worker_executes_in_submission_order Demo.file_ok Demo.file_ok s Hr)
    as (_ & Halive & Hlog).
  split; [exact Hr|split; [|exact Hlog]].
  apply Halive. vm_compute. reflexivity.
Defined.

(** C9: once the worker has exited (receiver gone) or the sender lock is
    poisoned, [send] drops the command and leaves the state unchanged, and
    every public playback command returns [()] normally. *)
Theorem closed_channel_drops_silently :
  forall s, worker_alive s = false \/ poisoned s = true ->
  forall command path volume time,
    send command s = s /\
    play_audio s path = (s, tt) /\ pause_audio s = (s, tt) /\
    resume_audio s = (s, tt) /\ stop_audio s = (s, tt) /\
    set_volume s volume = (s, tt) /\ seek_audio s time = (s, tt).
Proof.
  intros s Hs.
  assert (Hsend : forall command, send command s = s).
  { intros command. unfold send.
    destruct Hs as [Ha|Hp]; [rewrite Ha; destruct (poisoned s); reflexivity|rewrite Hp; reflexivity]. }
  intros command path volume time.
  unfold play_audio, pause_audio, resume_audio, stop_audio, set_volume, seek_audio.
  rewrite !Hsend. repeat split.
Qed.

(** Witness for C9: a player whose worker has exited. *)
Lemma closed_channel_drops_silently_witness :
  play_audio Demo.dead_player "A.mp3" = (Demo.dead_player, tt) /\
  stop_audio Demo.dead_player = (Demo.dead_player, tt).
Proof.
  destruct (closed_channel_drops_silently Demo.dead_player (or_introl eq_refl)
              Stop "A.mp3" 0.5%float 0.0%float)
    as (_ & Hplay & _ & _ & Hstop & _).
  split; assumption.
Defined.

End PlayerProofs.

(** * Proofs: PollingCompletionWatcher *)
Module ScreenshotProofs.
Import Screenshot.

Section Props.
Variable powershell : N -> Result string string.
Variable probe_ms : N -> N.

Lemma poll_loop_S : forall fuel elapsed,
  poll_loop powershell probe_ms (S fuel) elapsed =
  if N.ltb elapsed budget_ms then
    let next := (elapsed + probe_ms elapsed + interval_ms)%N in
    match powershell elapsed with
    | Ok out =>
        if String.eqb (trim out) EmptyString then poll_loop powershell probe_ms fuel next
        else Some ("data:image/png;base64," ++ trim out)
    | Err _ => poll_loop powershell probe_ms fuel next
    end
  else None.
Proof. reflexivity. Qed.

(** The loop ends with nothing, or with a PNG data URL. *)
Lemma poll_loop_shape : forall fuel elapsed,
  poll_loop powershell probe_ms fuel elapsed = None \/
  exists img, poll_loop powershell probe_ms fuel elapsed = Some ("data:image/png;base64," ++ img).
Proof.
  induction fuel as [|fuel IH]; intros elapsed; cbn [poll_loop]; [left; reflexivity|].
  destruct (N.ltb elapsed budget_ms); [|left; reflexivity].
  destruct (powershell elapsed) as [out|e]; [|apply IH].
  destruct (String.eqb (trim out) EmptyString); [apply IH|].
  right. eexists. reflexivity.
Qed.

(** Fuel only bounds the model: once it covers the remaining budget at one
    round per [interval_ms], more fuel changes nothing, so the initial
    [budget_ms / interval_ms] rounds behave as the unbounded [while] loop. *)
Lemma poll_loop_fuel_enough : forall n m elapsed,
  (budget_ms <= elapsed + interval_ms * N.of_nat n)%N -> n <= m ->
  poll_loop powershell probe_ms m elapsed = poll_loop powershell probe_ms n elapsed.
Proof.
  unfold interval_ms.
  induction n as [|n IH]; intros m elapsed Hb Hle.
  - destruct m as [|m]; cbn [poll_loop]; [reflexivity|].
    destruct (N.ltb_spec elapsed budget_ms); [lia|reflexivity].
  - destruct m as [|m]; [lia|]. cbn [poll_loop].
    destruct (N.ltb elapsed budget_ms); [|reflexivity].
    destruct (powershell elapsed) as [out|e].
    + destruct (String.eqb (trim out) EmptyString); [|reflexivity].
      apply IH; unfold interval_ms; lia.
    + apply IH; unfold interval_ms; lia.
Qed.

(** The elapsed times (ms) at which the loop starts its probes while it
    runs: [initial_delay_ms], then each probe's end plus the 500 ms sleep. *)
Fixpoint probe_from (t : N) (k : nat) : N :=
  match k with
  | O => t
  | S k' => probe_from (t + probe_ms t + interval_ms)%N k'
  end.

Definition probe_time (k : nat) : N := probe_from initial_delay_ms k.

(** The probe started at [t] finds an image: PowerShell ran and its trimmed
    stdout is not empty. *)
Definition image_at (t : N) : bool :=
  match powershell t with
  | Ok out => negb (String.eqb (trim out) EmptyString)
  | Err _ => false
  end.

Lemma probe_from_ge : forall k t, (t + interval_ms * N.of_nat k <= probe_from t k)%N.
Proof.
  induction k as [|k IH]; intros t; cbn [probe_from]; [lia|].
  specialize (IH (t + probe_ms t + interval_ms)%N). rewrite Nat2N.inj_succ.
  unfold interval_ms in *. lia.
Qed.

Lemma probe_from_mono : forall j k t, j <= k -> (probe_from t j <= probe_from t k)%N.
Proof.
  induction j as [|j IH]; intros k t Hjk.
  - cbn [probe_from]. pose proof (probe_from_ge k t). lia.
  - destruct k as [|k]; [lia|]. cbn [probe_from]. apply IH. lia.
Qed.

(** No probe before the budget runs out finds an image: the loop ends with
    nothing, whatever its fuel. *)
Lemma poll_loop_none : forall fuel t,
  (forall k, (probe_from t k < budget_ms)%N -> image_at (probe_from t k) = false) ->
  poll_loop powershell probe_ms fuel t = None.
Proof.
  induction fuel as [|fuel IH]; intros t H; [reflexivity|].
  rewrite poll_loop_S. destruct (N.ltb_spec t budget_ms) as [Ht|Ht]; [|reflexivity].
  cbv zeta.
  assert (Hnext : forall k, (probe_from (t + probe_ms t + interval_ms)%N k < budget_ms)%N ->
            image_at (probe_from (t + probe_ms t + interval_ms)%N k) = false)
    by (intros k; exact (H (S k))).
  specialize (H 0 Ht). unfold image_at in H. cbn [probe_from] in H.
  destruct (powershell t) as [out|e]; [|apply IH; exact Hnext].
  destruct (String.eqb (trim out) EmptyString); [apply IH; exact Hnext|discriminate H].
Qed.

(** The first probe that finds an image, within the budget and the fuel,
    gives the loop's result. *)
Lemma poll_loop_found : forall fuel t k out,
  k < fuel ->
  (probe_from t k < budget_ms)%N ->
  (forall j, j < k -> image_at (probe_from t j) = false) ->
  powershell (probe_from t k) = Ok out -> trim out <> EmptyString ->
  poll_loop powershell probe_ms fuel t = Some ("data:image/png;base64," ++ trim out).
Proof.
  induction fuel as [|fuel IH]; intros t k out Hk Hb Hbefore Hp Hne; [lia|].
  rewrite poll_loop_S.
  assert (Ht : (t < budget_ms)%N) by (pose proof (probe_from_mono 0 k t ltac:(lia)); cbn [probe_from] in *; lia).
  apply N.ltb_lt in Ht. rewrite Ht. cbv zeta.
  destruct k as [|k].
  - cbn [probe_from] in Hp. rewrite Hp.
    destruct (String.eqb_spec (trim out) EmptyString); [contradiction|reflexivity].
  - pose proof (Hbefore 0 ltac:(lia)) as H0. unfold image_at in H0. cbn [probe_from] in H0.
    assert (Hrest : poll_loop powershell probe_ms fuel (t + probe_ms t + interval_ms)%N =
                    Some ("data:image/png;base64," ++ trim out)).
    { apply (IH _ k); [lia|exact Hb| |exact Hp|exact Hne].
      intros j Hj. exact (Hbefore (S j) ltac:(lia)). }
    destruct (powershell t) as [o|e]; [|exact Hrest].
    destruct (String.eqb (trim o) EmptyString); [exact Hrest|discriminate H0].
Qed.

End Props.

Lemma least_true : forall (f : nat -> bool) k, f k = true ->
  exists k0, k0 <= k /\ f k0 = true /\ forall j, j < k0 -> f j = false.
Proof.
  intros f k. induction k as [k IH] using lt_wf_ind. intros Hk.
  destruct (existsb f (seq 0 k)) eqn:E.
  - apply existsb_exists in E as [j [Hj Hfj]]. apply in_seq in Hj.
    destruct (IH j ltac:(lia) Hfj) as [k0 [H1 H2]]. exists k0. split; [lia|exact H2].
  - exists k. split; [lia|]. split; [exact Hk|]. intros j Hj.
    destruct (f j) eqn:Fj; [|reflexivity]. exfalso.
    assert (existsb f (seq 0 k) = true) as E'
      by (apply existsb_exists; exists j; split; [apply in_seq; lia|exact Fj]).
    congruence.
Qed.

(** C7: [wait_for_clipboard_image] always returns [Ok]: either a success
    result carrying the image as a PNG data URL, or a result with
    [success = false] and the timeout message. If some probe started within
    the 60 s budget finds an image, the result is the success one, carrying
    the image of the first such probe; if no probe within the budget finds
    one, the result is the timeout one. *)
Theorem clipboard_wait_returns_result :
  forall powershell probe_ms,
    exists r, wait_for_clipboard_image powershell probe_ms = Ok r /\
      ((ss_success r = true /\ ss_error r = None /\
        exists img, ss_image_data r = Some ("data:image/png;base64," ++ img)) \/
       (ss_success r = false /\ ss_image_data r = None /\ ss_error r = Some timeout_message)) /\
      ((exists k, (probe_time probe_ms k < budget_ms)%N /\
                  image_at powershell (probe_time probe_ms k) = true) ->
         ss_success r = true) /\
      (forall k out, (probe_time probe_ms k < budget_ms)%N ->
         (forall j, j < k -> image_at powershell (probe_time probe_ms j) = false) ->
         powershell (probe_time probe_ms k) = Ok out -> trim out <> EmptyString ->
         ss_image_data r = Some ("data:image/png;base64," ++ trim out)) /\
      ((forall k, (probe_time probe_ms k < budget_ms)%N ->
                  image_at powershell (probe_time probe_ms k) = false) ->
         ss_success r = false /\ ss_image_data r = None /\ ss_error r = Some timeout_message).
Proof.
  intros powershell probe_ms. unfold wait_for_clipboard_image.
  assert (Hfound : forall k out, (probe_time probe_ms k < budget_ms)%N ->
            (forall j, j < k -> image_at powershell (probe_time probe_ms j) = false) ->
            powershell (probe_time probe_ms k) = Ok out -> trim out <> EmptyString ->
            poll_loop powershell probe_ms (N.to_nat (budget_ms / interval_ms)) initial_delay_ms =
            Some ("data:image/png;base64," ++ trim out)).
  { intros k out Hb Hbefore Hp Hne. unfold probe_time in *.
    apply (poll_loop_found powershell probe_ms _ _ k); try assumption.
    pose proof (probe_from_ge probe_ms k initial_delay_ms) as Hge.
    replace (N.to_nat (budget_ms / interval_ms)) with 120 by (vm_compute; reflexivity).
    unfold budget_ms, initial_delay_ms, interval_ms in *. lia. }
  assert (Hnone : (forall k, (probe_time probe_ms k < budget_ms)%N ->
                     image_at powershell (probe_time probe_ms k) = false) ->
            poll_loop powershell probe_ms (N.to_nat (budget_ms / interval_ms)) initial_delay_ms = None).
  { intros H. apply poll_loop_none. exact H. }
  assert (Hex : (exists k, (probe_time probe_ms k < budget_ms)%N /\
                           image_at powershell (probe_time probe_ms k) = true) ->
            exists img, poll_loop powershell probe_ms (N.to_nat (budget_ms / interval_ms))
                          initial_delay_ms = Some img).
  { intros [k [Hk Hi]].
    destruct (least_true (fun j => image_at powershell (probe_time probe_ms j)) k Hi)
      as [k0 [Hle [Hi0 Hlt]]].
    unfold image_at in Hi0.
    destruct (powershell (probe_time probe_ms k0)) as [out|e] eqn:Hp; [|discriminate Hi0].
    destruct (String.eqb_spec (trim out) EmptyString) as [He|Hne]; [discriminate Hi0|].
    eexists. apply (Hfound k0 out); [|exact Hlt|exact Hp|exact Hne].
    pose proof (probe_from_mono probe_ms k0 k initial_delay_ms Hle). unfold probe_time in *. lia. }
  destruct (poll_loop_shape powershell probe_ms (N.to_nat (budget_ms / interval_ms)) initial_delay_ms)
    as [HL|[img HL]]; rewrite HL; eexists; (split; [reflexivity|]); cbn [ss_success ss_error ss_image_data].
  - split; [right; repeat split|].
    split; [intros H; destruct (Hex H) as [img H']; rewrite HL in H'; discriminate H'|].
    split; [intros k out Hb Hbefore Hp Hne; rewrite (Hfound k out Hb Hbefore Hp Hne) in HL; discriminate HL|].
    intros _. repeat split.
  - split; [left; repeat split; exists img; reflexivity|].
    split; [intros _; reflexivity|].
    split; [intros k out Hb Hbefore Hp Hne; rewrite (Hfound k out Hb Hbefore Hp Hne) in HL;
            injection HL as HL; rewrite HL; reflexivity|].
    intros H. rewrite (Hnone H) in HL. discriminate HL.
Qed.

(** Witness for C7: a probe that finds an image from 3 s on; the fourth
    probe, started at 3.1 s, finds it. *)
Lemma clipboard_wait_returns_result_witness :
  exists r, wait_for_clipboard_image Demo.probe_after_3s Demo.probe_cost = Ok r /\
    ss_success r = true.
Proof.
  destruct (clipboard_wait_returns_result Demo.probe_after_3s Demo.probe_cost)
    as (r & Hr & _ & Hex & _).
  exists r. split; [exact Hr|]. apply Hex. exists 3. split; vm_compute; reflexivity.
Defined.

(** The two terminal outcomes on sample probes: an image from 3 s on, and
    never an image. *)
Example clipboard_wait_samples :
  wait_for_clipboard_image Demo.probe_after_3s Demo.probe_cost =
    Ok {| ss_success := true; ss_image_data := Some "data:image/png;base64,iVBORw0KGgo=";
          ss_image_path := None; ss_error := None |} /\
  wait_for_clipboard_image Demo.probe_never Demo.probe_cost =
    Ok {| ss_success := false; ss_image_data := None;
          ss_image_path := None; ss_error := Some timeout_message |}.
Proof. split; vm_compute; reflexivity. Qed.

End ScreenshotProofs.

(** * Proofs: the pull runner beyond the error path *)
Module OllamaRunnerProofs.
Import Ollama.

(** The lines a stream's chunks split into, and the records the parser
    reads from a list of lines. *)
Definition chunk_lines (stream : list (Result string string)) : list string :=
  List.concat (map (fun item => match item with Ok c => lines c | Err _ => [] end) stream).

Definition records (parse : string -> option PullResponse) (ls : list string) : list PullResponse :=
  flat_map (fun l => match parse l with Some r => [r] | None => [] end) ls.

Definition nonblank (l : string) : bool := negb (trim_is_empty l).

Section Props.
Variable parse_pull_response : string -> option PullResponse.
Variable emit : ProgressEvent -> option string.
Variable model_name : string.

Hypothesis Hemit : forall ev, emit ev = None.

Lemma process_lines_clean : forall ls,
  (forall l r, In l ls -> parse_pull_response l = Some r -> pr_error r = None) ->
  forall tr,
  process_lines parse_pull_response emit model_name ls tr =
  ({| emitted := (emitted tr ++ map (progress_event model_name)
                                   (records parse_pull_response (filter nonblank ls)))%list;
      parsed := (parsed tr ++ filter nonblank ls)%list;
      pulled := pulled tr |}, None).
Proof.
  induction ls as [|l ls IH]; intros Hparse tr.
  - cbn. rewrite !app_nil_r. destruct tr; reflexivity.
  - assert (Hl : forall r, parse_pull_response l = Some r -> pr_error r = None)
      by (intros r; apply Hparse; left; reflexivity).
    specialize (IH ltac:(intros l' r' Hl'; apply Hparse; right; exact Hl')).
    change (filter nonblank (l :: ls))
      with (if nonblank l then l :: filter nonblank ls else filter nonblank ls).
    cbn [process_lines].
    destruct (trim_is_empty l) eqn:Hb;
      replace (nonblank l) with (negb (trim_is_empty l)) by reflexivity;
      rewrite Hb; cbn [negb].
    + apply IH.
    + unfold records at 1; cbn [flat_map].
      destruct (parse_pull_response l) as [r|] eqn:Hp.
      * rewrite (Hl _ eq_refl), Hemit, IH. cbn.
        rewrite <- !app_assoc. reflexivity.
      * rewrite IH. cbn. rewrite <- !app_assoc. reflexivity.
Qed.

Lemma pull_loop_clean : forall stream tr,
  (forall item, In item stream -> exists chunk, item = Ok chunk) ->
  (forall l r, In l (chunk_lines stream) -> parse_pull_response l = Some r -> pr_error r = None) ->
  pull_loop parse_pull_response emit model_name stream tr =
  ({| emitted := (emitted tr ++ map (progress_event model_name)
                   (records parse_pull_response (filter nonblank (chunk_lines stream))))%list;
      parsed := (parsed tr ++ filter nonblank (chunk_lines stream))%list;
      pulled := pulled tr + List.length stream |}, Ok tt).
Proof.
  induction stream as [|item stream IH]; intros tr Hok Hparse; cbn.
  - rewrite !app_nil_r, Nat.add_0_r. destruct tr; reflexivity.
  - destruct (Hok item (or_introl eq_refl)) as [chunk ->].
    unfold chunk_lines in Hparse; cbn [map List.concat] in Hparse.
    rewrite process_lines_clean
      by (intros l r Hl; apply Hparse; apply in_or_app; left; exact Hl). cbn.
    rewrite IH; [|intros i Hi; apply Hok; right; exact Hi
                 |intros l r Hl; apply Hparse; apply in_or_app; right; exact Hl]. cbn.
    unfold chunk_lines. cbn [map List.concat].
    rewrite filter_app. unfold records. rewrite flat_map_app, map_app, !app_assoc.
    f_equal. f_equal. lia.
Qed.

End Props.

(** What the runner has done is consistent: the parser only ever sees
    non-blank lines, and each emitted event comes from a parsed line. *)
Definition trace_ok (tr : Trace) : Prop :=
  Forall (fun l => trim_is_empty l = false) (parsed tr) /\
  List.length (emitted tr) <= List.length (parsed tr).

Lemma process_lines_trace_ok : forall parse emit model ls tr,
  trace_ok tr -> trace_ok (fst (process_lines parse emit model ls tr)).
Proof.
  intros parse emit model.
  induction ls as [|l ls IH]; intros tr [Hf Hl]; cbn; [split; assumption|].
  destruct (trim_is_empty l) eqn:Hb; [apply IH; split; assumption|].
  assert (H1 : trace_ok (log_parse l tr)).
  { unfold log_parse, trace_ok; cbn. split.
    - apply Forall_app. split; [exact Hf|]. constructor; [exact Hb|constructor].
    - rewrite length_app. cbn. lia. }
  destruct (parse l) as [r|]; [|apply IH; exact H1].
  destruct (pr_error r); [exact H1|].
  destruct (emit _); [exact H1|].
  apply IH. destruct H1 as [H1f H1l]. unfold log_emit, trace_ok; cbn.
  split; [exact H1f|]. unfold log_parse in *; cbn in *.
  rewrite !length_app in *. cbn in *. lia.
Qed.

Lemma pull_loop_trace_ok : forall parse emit model stream tr,
  trace_ok tr -> trace_ok (fst (pull_loop parse emit model stream tr)).
Proof.
  intros parse emit model.
  induction stream as [|item stream IH]; intros tr Htr; cbn; [exact Htr|].
  assert (Hp : trace_ok (log_pull tr)) by exact Htr.
  destruct item as [chunk|e]; [|exact Hp].
  pose proof (process_lines_trace_ok parse emit model (lines chunk) (log_pull tr) Hp) as H.
  destruct (process_lines parse emit model (lines chunk) (log_pull tr)) as [tr2 [e|]];
    [exact H|apply IH; exact H].
Qed.

(** X1: on a stream with no transport error, where no record parsed from
    one of its lines carries an [error] and every emit succeeds, [ollama_pull_model] returns [Ok(())]
    after pulling every chunk; it hands every non-blank line to the parser,
    in order, and emits one event per record read, in order (lines that do
    not parse are skipped without an event). *)
Theorem pull_without_errors_consumes_stream :
  forall parse_pull_response emit model_name stream,
    (forall item, In item stream -> exists chunk, item = Ok chunk) ->
    (forall l r, In l (chunk_lines stream) ->
                 parse_pull_response l = Some r -> pr_error r = None) ->
    (forall ev, emit ev = None) ->
    ollama_pull_model parse_pull_response emit model_name (Ok stream) =
    ({| emitted := map (progress_event model_name)
                     (records parse_pull_response (filter nonblank (chunk_lines stream)));
        parsed := filter nonblank (chunk_lines stream);
        pulled := List.length stream |}, Ok tt).
Proof.
  intros parse emit model stream Hok Hparse Hemit. unfold ollama_pull_model.
  rewrite (pull_loop_clean parse emit model Hemit stream trace0 Hok Hparse). reflexivity.
Qed.

Lemma pull_without_errors_consumes_stream_witness :
  ollama_pull_model Demo.parse_ok_only Demo.emit_ok "llama3" (Ok Demo.clean_stream) =
  ({| emitted := map (progress_event "llama3")
                   (records Demo.parse_ok_only (filter nonblank (chunk_lines Demo.clean_stream)));
      parsed := filter nonblank (chunk_lines Demo.clean_stream);
      pulled := List.length Demo.clean_stream |}, Ok tt).
Proof.
  apply pull_without_errors_consumes_stream.
  - intros item [<-|[<-|[]]]; eexists; reflexivity.
  - intros l r _ H. unfold Demo.parse_ok_only in H.
    destruct (String.eqb l "ok"); [injection H as <-; reflexivity|discriminate H].
  - intros ev. reflexivity.
Defined.

(** X2: whatever the stream, the parser and the window do, the runner never
    hands a blank line to [serde_json], and it emits at most one event per
    line parsed. *)
Theorem pull_parses_only_nonblank_lines :
  forall parse_pull_response emit model_name response,
    let tr := fst (ollama_pull_model parse_pull_response emit model_name response) in
    Forall (fun l => trim_is_empty l = false) (parsed tr) /\
    List.length (emitted tr) <= List.length (parsed tr).
Proof.
  intros parse emit model response. cbn zeta. unfold ollama_pull_model.
  destruct response as [stream|e].
  - apply pull_loop_trace_ok. split; [constructor|cbn; lia].
  - cbn. split; [constructor|lia].
Qed.

End OllamaRunnerProofs.

(** * Proofs: model choice and reply cleanup of [generate_ffmpeg_command] *)
Module OllamaCommandsProofs.
Import OllamaCommands.

Lemma prefix_app : forall p s, String.prefix p (p ++ s) = true.
Proof.
  induction p as [|a p IH]; intros s; [destruct s; reflexivity|cbn].
  destruct (ascii_dec a a) as [_|n]; [apply IH|contradiction n; reflexivity].
Qed.

(** Characters of a string. *)
Definition chars_within (s t : string) : Prop :=
  forall c, In c (list_ascii_of_string s) -> In c (list_ascii_of_string t).

Lemma trim_start_go_within : forall s skip, chars_within (Screenshot.trim_start_go skip s) s.
Proof.
  induction s as [|a s IH]; intros skip c; cbn [Screenshot.trim_start_go]; [tauto|].
  destruct skip as [|k].
  - destruct (ws_len (String a s)) as [|k]; [tauto|].
    intros H. right. apply (IH k), H.
  - intros H. right. apply (IH k), H.
Qed.

Lemma trim_start_within : forall s, chars_within (Screenshot.trim_start s) s.
Proof. intros s. apply trim_start_go_within. Qed.

Lemma trim_end_within : forall s, chars_within (Screenshot.trim_end s) s.
Proof.
  induction s as [|a s IH]; intros c; cbn [Screenshot.trim_end]; [tauto|].
  destruct (trim_is_empty (String a s)); cbn; [tauto|].
  intros [H|H]; [left; exact H|right; apply IH, H].
Qed.

Lemma trim_within : forall s, chars_within (Screenshot.trim s) s.
Proof.
  intros s c H. apply trim_start_within, trim_end_within, H.
Qed.

Lemma strip_cr_within : forall s, chars_within (strip_cr s) s.
Proof.
  induction s as [|a s IH]; intros c; [cbn; tauto|].
  destruct s as [|b s'].
  - change (strip_cr (String a EmptyString))
      with (if Ascii.eqb a cr then EmptyString else String a EmptyString).
    destruct (Ascii.eqb a cr); cbn; tauto.
  - change (strip_cr (String a (String b s'))) with (String a (strip_cr (String b s'))).
    cbn [list_ascii_of_string]. intros [H|H]; [left; exact H|right; apply IH, H].
Qed.

Lemma split_lf_no_lf : forall s,
  ~ In lf (list_ascii_of_string (fst (split_lf s))) /\
  Forall (fun q => ~ In lf (list_ascii_of_string q)) (snd (split_lf s)).
Proof.
  induction s as [|a s IH]; [cbn; split; [tauto|constructor]|].
  change (split_lf (String a s))
    with (let (p, ps) := split_lf s in
          if Ascii.eqb a lf then (EmptyString, p :: ps) else (String a p, ps)).
  destruct (split_lf s) as [p ps]. cbn [fst snd] in IH. destruct IH as [Hp Hps].
  destruct (Ascii.eqb a lf) eqn:Ha; cbn [fst snd list_ascii_of_string In].
  - split; [tauto|constructor; assumption].
  - split; [|exact Hps].
    intros [H|H]; [|exact (Hp H)].
    subst a. rewrite Ascii.eqb_refl in Ha. discriminate Ha.
Qed.

Lemma lines_of_no_lf : forall ps p,
  ~ In lf (list_ascii_of_string p) ->
  Forall (fun q => ~ In lf (list_ascii_of_string q)) ps ->
  forall l, In l (lines_of p ps) -> ~ In lf (list_ascii_of_string l).
Proof.
  induction ps as [|q qs IH]; intros p Hp Hps l Hl; cbn in Hl.
  - destruct (String.eqb p EmptyString); [destruct Hl|].
    destruct Hl as [<-|[]]. exact Hp.
  - inversion Hps as [|? ? Hq Hqs]; subst.
    destruct Hl as [<-|Hl].
    + intros H. apply Hp, strip_cr_within, H.
    + exact (IH q Hq Hqs l Hl).
Qed.

Lemma lines_no_lf : forall s l, In l (lines s) -> ~ In lf (list_ascii_of_string l).
Proof.
  intros s. unfold lines. pose proof (split_lf_no_lf s) as [Hp Hps].
  destruct (split_lf s) as [p ps]. apply lines_of_no_lf; assumption.
Qed.

Lemma split_lf_empty : forall s, split_lf s = (EmptyString, []) -> s = EmptyString.
Proof.
  intros [|a s]; [reflexivity|].
  change (split_lf (String a s))
    with (let (p, ps) := split_lf s in
          if Ascii.eqb a lf then (EmptyString, p :: ps) else (String a p, ps)).
  destruct (split_lf s) as [p ps]. destruct (Ascii.eqb a lf); discriminate.
Qed.

Lemma lines_nil : forall s, lines s = [] -> s = EmptyString.
Proof.
  intros s. unfold lines. destruct (split_lf s) as [p ps] eqn:Hs.
  destruct ps as [|q qs]; cbn; [|discriminate].
  destruct (String.eqb p EmptyString) eqn:Hp; [|discriminate].
  intros _. apply String.eqb_eq in Hp. subst p. apply split_lf_empty, Hs.
Qed.

Lemma extract_command_no_lf : forall cleaned,
  ~ In lf (list_ascii_of_string (extract_command cleaned)).
Proof.
  intros cleaned H. unfold extract_command in H.
  destruct (find is_command_line (lines cleaned)) as [s|] eqn:Hf.
  - apply find_some in Hf as [Hin _].
    exact (lines_no_lf cleaned s Hin (trim_within s lf H)).
  - destruct (lines cleaned) as [|l ls] eqn:Hl.
    + rewrite (lines_nil cleaned Hl) in H. destruct (trim_within EmptyString lf H).
    + exact (lines_no_lf cleaned l (ltac:(rewrite Hl; left; reflexivity)) (trim_within l lf H)).
Qed.

(** X3: the choice goes by family (the text before ':'): as soon as any
    installed model's name starts with "deepseek-r1", the model asked for
    is "deepseek-r1:1.5b", whichever deepseek-r1 tag is installed. *)
Theorem deepseek_installed_selects_first_tag :
  forall available_models m,
    In m available_models ->
    String.prefix "deepseek-r1" (om_name m) = true ->
    model_to_use available_models = "deepseek-r1:1.5b".
Proof.
  intros avail m Hin Hp. unfold model_to_use, preferred_models. cbn [find].
  replace (existsb (fun m0 => String.prefix (before_colon "deepseek-r1:1.5b") (om_name m0)) avail)
    with true; [reflexivity|].
  symmetry. apply existsb_exists. exists m. split; [exact Hin|exact Hp].
Qed.

(** X4: the model asked for is the first tag of a preferred family
    (deepseek-r1:1.5b, qwen2.5:3b, llama3.2:3b, llama3.1:8b, mistral:7b),
    so deepseek-r1:7b, deepseek-r1:14b, qwen2.5:7b and llama3.2:1b are
    never chosen by preference; or, when no installed name starts with a
    preferred family, it is the first installed model, and "llama3.2:1b"
    when none is listed. *)
Theorem model_choice_first_tag_per_family :
  forall available_models,
    In (model_to_use available_models)
       ["deepseek-r1:1.5b"; "qwen2.5:3b"; "llama3.2:3b"; "llama3.1:8b"; "mistral:7b"] \/
    ((forall p m, In p preferred_models -> In m available_models ->
        String.prefix (before_colon p) (om_name m) = false) /\
     model_to_use available_models =
       match available_models with m :: _ => om_name m | [] => "llama3.2:1b" end).
Proof.
  intros avail. unfold model_to_use.
  set (fam := fun preferred : string =>
                existsb (fun m => String.prefix (before_colon preferred) (om_name m)) avail).
  assert (E1 : fam "deepseek-r1:7b" = fam "deepseek-r1:1.5b") by reflexivity.
  assert (E2 : fam "deepseek-r1:14b" = fam "deepseek-r1:1.5b") by reflexivity.
  assert (E3 : fam "qwen2.5:7b" = fam "qwen2.5:3b") by reflexivity.
  assert (E4 : fam "llama3.2:1b" = fam "llama3.2:3b") by reflexivity.
  assert (Hfam : forall p, fam p = false -> forall m, In m avail ->
                 String.prefix (before_colon p) (om_name m) = false).
  { intros p Hp m Hm. destruct (String.prefix (before_colon p) (om_name m)) eqn:E; [|reflexivity].
    unfold fam in Hp. rewrite <- Hp. symmetry. apply existsb_exists. exists m. split; assumption. }
  clearbody fam. unfold preferred_models. cbn [find]. rewrite E1, E2, E3, E4.
  destruct (fam "deepseek-r1:1.5b") eqn:F1; [left; cbn; tauto|].
  destruct (fam "qwen2.5:3b") eqn:F2; [left; cbn; tauto|].
  destruct (fam "llama3.2:3b") eqn:F3; [left; cbn; tauto|].
  destruct (fam "llama3.1:8b") eqn:F4; [left; cbn; tauto|].
  destruct (fam "mistral:7b") eqn:F5; [left; cbn; tauto|].
  right. split; [|reflexivity].
  intros p m Hp Hm. apply (Hfam p); [|exact Hm].
  cbn in Hp. repeat (destruct Hp as [<-|Hp]; [congruence|]). destruct Hp.
Qed.

(** X5: a failed listing (no connection, a non-2xx status or an unreadable
    body) is not reported: the command then asks "llama3.2:1b", and its
    result is the cleaned reply or "Failed to generate command: ..." *)
Theorem generate_ignores_listing_failure :
  forall status_display parse_list_response ollama_generate listing prompt e,
    ollama_list_models status_display parse_list_response listing = Err e ->
    generate_ffmpeg_command status_display parse_list_response ollama_generate listing prompt =
    match ollama_generate "llama3.2:1b" (full_prompt prompt) with
    | Ok response => Ok (extract_command (clean_response response))
    | Err e' => Err ("Failed to generate command: " ++ e')
    end.
Proof.
  intros sd pl gen listing prompt e H. unfold generate_ffmpeg_command. rewrite H. reflexivity.
Qed.

(** X6: a command returned by [generate_ffmpeg_command] is a single line:
    it holds no '\n', whatever the model replied. *)
Theorem generated_command_is_one_line :
  forall status_display parse_list_response ollama_generate listing prompt command,
    generate_ffmpeg_command status_display parse_list_response ollama_generate listing prompt
      = Ok command ->
    ~ In lf (list_ascii_of_string command).
Proof.
  intros sd pl gen listing prompt command H. unfold generate_ffmpeg_command in H.
  destruct (gen _ _) as [response|e]; [|discriminate H].
  injection H as <-. apply extract_command_no_lf.
Qed.

Lemma deepseek_installed_selects_first_tag_witness :
  In (Demo.installed "deepseek-r1:14b") [Demo.installed "deepseek-r1:14b"] /\
  model_to_use [Demo.installed "deepseek-r1:14b"] = "deepseek-r1:1.5b".
Proof.
  split; [left; reflexivity|].
  apply (deepseek_installed_selects_first_tag _ (Demo.installed "deepseek-r1:14b"));
    [left; reflexivity|reflexivity].
Defined.

Lemma generate_ignores_listing_failure_witness :
  generate_ffmpeg_command Demo.status_text Demo.parse_tags Demo.generate_fenced
    (Err "connection refused") "extract the audio" = Ok "ffmpeg -i {input} -vn {output}".
Proof.
  rewrite (generate_ignores_listing_failure Demo.status_text Demo.parse_tags Demo.generate_fenced
             (Err "connection refused") "extract the audio"
             "Failed to connect to Ollama: connection refused");
    vm_compute; reflexivity.
Defined.

Lemma generated_command_is_one_line_witness :
  ~ In lf (list_ascii_of_string "ffmpeg -i {input} -vn {output}").
Proof.
  apply (generated_command_is_one_line Demo.status_text Demo.parse_tags Demo.generate_fenced
           (Ok {| http_status := 200; http_body := "" |}) "extract the audio").
  vm_compute. reflexivity.
Defined.

End OllamaCommandsProofs.

(** * Proofs: the other helper commands of [audio_ai/mod.rs] *)
Module AudioAICommandsProofs.
Import AudioAI AudioAICommands.

Lemma prefix_split : forall p s, String.prefix p s = true -> exists r, s = p ++ r.
Proof.
  induction p as [|a p IH]; intros s H; [exists s; reflexivity|].
  destruct s as [|b s]; [discriminate H|]. cbn in H.
  destruct (ascii_dec a b) as [<-|_]; [|discriminate H].
  destruct (IH s H) as [r ->]. exists r. reflexivity.
Qed.

Lemma contains_app : forall before pattern after,
  contains (before ++ pattern ++ after) pattern = true.
Proof.
  induction before as [|a before IH]; intros pattern after.
  - destruct (pattern ++ after) as [|c t] eqn:E; cbn [contains append];
      rewrite <- E, OllamaCommandsProofs.prefix_app; reflexivity.
  - cbn [append contains]. rewrite IH. apply orb_true_r.
Qed.

Lemma contains_split : forall s pattern,
  contains s pattern = true -> exists before after, s = before ++ pattern ++ after.
Proof.
  induction s as [|c s IH]; intros pattern H; cbn [contains] in H.
  - rewrite orb_false_r in H. apply prefix_split in H as [r Hr].
    exists EmptyString, r. exact Hr.
  - apply orb_true_iff in H as [H|H].
    + apply prefix_split in H as [r Hr]. exists EmptyString, r. exact Hr.
    + destruct (IH pattern H) as [before [after ->]].
      exists (String c before), after. reflexivity.
Qed.

(** A command that goes on to the helper leaves the world as the helper
    invocation left it: parsing its output changes nothing. *)
Lemma then_lift_world : forall {A B} (m : M A) (k : A -> Result B string) f w,
  fst ((x <- m ;; lift (k x) f) w) = fst (m w).
Proof.
  intros A B m k f w. unfold bind, lift. destruct (m w) as [w' [a|e]]; cbn; [destruct (k a)|]; reflexivity.
Qed.

Lemma run_python_missing : forall path_exists run_child args {B} (k : string -> M B) w e,
  get_audio_ai_script_path path_exists = Err e ->
  bind (run_python_audio_command path_exists run_child args) k w = (w, Err e).
Proof.
  intros pe rc args B k w e H.
  unfold bind, run_python_audio_command, bind, lift. rewrite H. reflexivity.
Qed.

Lemma store_then : forall b {A} (m : M A) w,
  bind (store_cancel b) (fun _ => m) w = m {| cancel_download := b; children := children w |}.
Proof. reflexivity. Qed.

Lemma run_python_flag : forall path_exists run_child args w,
  cancel_download (fst (run_python_audio_command path_exists run_child args w)) = cancel_download w.
Proof.
  intros pe rc args w. unfold run_python_audio_command, bind, lift, ret, fail, command_output.
  destruct (get_audio_ai_script_path pe) as [script|e]; [|reflexivity].
  destruct (rc _ script args) as [out|e]; [|reflexivity].
  destruct (status_success out); reflexivity.
Qed.

Lemma run_python_child : forall path_exists run_child args w script out,
  get_audio_ai_script_path path_exists = Ok script ->
  run_child (get_python_executable path_exists) script args = Ok out ->
  children (fst (run_python_audio_command path_exists run_child args w)) =
  (children w ++ [(get_python_executable path_exists, script, args)])%list.
Proof.
  intros pe rc args w script out Hs Hr.
  rewrite (AudioAIProofs.run_python_found pe rc args w script Hs), Hr.
  destruct (status_success out); reflexivity.
Qed.

Lemma run_python_children : forall path_exists run_child args w,
  children (fst (run_python_audio_command path_exists run_child args w)) = children w \/
  exists script, get_audio_ai_script_path path_exists = Ok script /\
    children (fst (run_python_audio_command path_exists run_child args w)) =
    (children w ++ [(get_python_executable path_exists, script, args)])%list.
Proof.
  intros pe rc args w.
  destruct (get_audio_ai_script_path pe) as [script|e] eqn:Hs.
  - destruct (rc (get_python_executable pe) script args) as [out|e] eqn:Hr.
    + right. exists script. split; [reflexivity|]. exact (run_python_child pe rc args w script out Hs Hr).
    + left. rewrite (AudioAIProofs.run_python_found pe rc args w script Hs), Hr. reflexivity.
  - left. unfold run_python_audio_command, bind, lift. rewrite Hs. reflexivity.
Qed.

(** The outcome of a helper command when the helper script is missing: the
    error, and no child created. *)
Definition script_missing {A} (r : World * Result A string) (w : World) : Prop :=
  snd r = Err "Audio AI helper script not found" /\ children (fst r) = children w.

(** X7: the forbidden-pattern check of [run_ffmpeg_command] is a
    case-insensitive substring test: when the lowercased command contains
    "rm ", "del ", "format ", "rmdir " or "rd " anywhere (also inside a
    word, as in "loudnorm "), the command returns [Ok] with
    [success = false] and the error "Command contains forbidden patterns",
    and no process is started. *)
Theorem forbidden_command_refused :
  forall path_exists run_child parse_FFmpegCommandResult command pattern before after w,
    In pattern dangerous_patterns ->
    to_lowercase command = before ++ pattern ++ after ->
    run_ffmpeg_command path_exists run_child parse_FFmpegCommandResult command w =
    (w, Ok forbidden_result).
Proof.
  intros pe rc parse command pattern before after w Hin Hlow.
  unfold run_ffmpeg_command. rewrite Hlow.
  replace (existsb (contains (before ++ pattern ++ after)) dangerous_patterns) with true;
    [reflexivity|].
  symmetry. apply existsb_exists. exists pattern. split; [exact Hin|apply contains_app].
Qed.

(** X8: [run_ffmpeg_command] starts a process only for a command whose
    lowercased text contains none of the patterns, and then exactly one:
    the helper script, with the arguments "--action", "run_ffmpeg",
    "--command" and the command as given (not lowercased). *)
Theorem ffmpeg_helper_runs_only_clean_commands :
  forall path_exists run_child parse_FFmpegCommandResult command w,
    children (fst (run_ffmpeg_command path_exists run_child parse_FFmpegCommandResult command w))
      <> children w ->
    Forall (fun pattern => contains (to_lowercase command) pattern = false) dangerous_patterns /\
    exists script,
      get_audio_ai_script_path path_exists = Ok script /\
      children (fst (run_ffmpeg_command path_exists run_child parse_FFmpegCommandResult command w)) =
      (children w ++ [(get_python_executable path_exists, script,
                       ["--action"; "run_ffmpeg"; "--command"; command])])%list.
Proof.
  intros pe rc parse command w Hchanged. unfold run_ffmpeg_command in *.
  destruct (existsb (contains (to_lowercase command)) dangerous_patterns) eqn:Hpat.
  - contradiction Hchanged. reflexivity.
  - split.
    + apply Forall_forall. intros pattern Hin.
      destruct (contains (to_lowercase command) pattern) eqn:Hc; [|reflexivity].
      rewrite <- Hpat. symmetry. apply existsb_exists. exists pattern. split; assumption.
    + rewrite then_lift_world in *.
      destruct (run_python_children pe rc ["--action"; "run_ffmpeg"; "--command"; command] w)
        as [Hsame|Hrun]; [contradiction|exact Hrun].
Qed.

(** X9: when none of the candidate helper script paths exists, every
    helper command of the file (the forbidden-pattern path of
    [run_ffmpeg_command] apart) fails with "Audio AI helper script not
    found" and starts no process. *)
Theorem missing_helper_script_spawns_nothing :
  forall path_exists run_child,
    Forall (fun p => path_exists p = false) script_paths ->
    forall w,
    (forall parse_ModelStatus,
       script_missing (check_ai_models path_exists run_child parse_ModelStatus w) w) /\
    (forall parse_DownloadResult model_name,
       script_missing (download_whisper_model path_exists run_child parse_DownloadResult model_name w) w) /\
    (forall parse_DownloadResult,
       script_missing (download_diarization_model path_exists run_child parse_DownloadResult w) w) /\
    (forall parse_DownloadResult,
       script_missing (download_denoiser_model path_exists run_child parse_DownloadResult w) w) /\
    (forall parse_TranscriptionResult transcribe_params audio_path model_name language output_format,
       script_missing (transcribe_audio path_exists run_child parse_TranscriptionResult transcribe_params
                         audio_path model_name language output_format w) w) /\
    (forall parse_Value,
       script_missing (debug_python_env path_exists run_child parse_Value w) w) /\
    (forall parse_DiarizationResult diarize_params audio_path model_name language num_speakers max_speakers,
       script_missing (transcribe_with_diarization path_exists run_child parse_DiarizationResult
                         diarize_params audio_path model_name language num_speakers max_speakers w) w) /\
    (forall parse_ExportResult export_speaker_params diarization_result speaker output_path,
       script_missing (export_speaker_srt path_exists run_child parse_ExportResult export_speaker_params
                         diarization_result speaker output_path w) w) /\
    (forall parse_ExportResult export_all_params diarization_result output_dir base_name,
       script_missing (export_all_speakers_srt path_exists run_child parse_ExportResult export_all_params
                         diarization_result output_dir base_name w) w) /\
    (forall parse_ExportResult extract_params audio_path diarization_result speaker output_path per_sentence,
       script_missing (extract_speaker_audio path_exists run_child parse_ExportResult extract_params
                         audio_path diarization_result speaker output_path per_sentence w) w) /\
    (forall parse_DenoiseResult audio_path output_path method,
       script_missing (remove_background_noise path_exists run_child parse_DenoiseResult
                         audio_path output_path method w) w) /\
    (forall parse_DenoiseResult input_path output_dir method strength,
       script_missing (denoise_audio_ffmpeg path_exists run_child parse_DenoiseResult
                         input_path output_dir method strength w) w) /\
    (forall parse_FFmpegCommandResult command,
       existsb (contains (to_lowercase command)) dangerous_patterns = false ->
       script_missing (run_ffmpeg_command path_exists run_child parse_FFmpegCommandResult command w) w).
Proof.
  intros pe rc Hnone w.
  assert (Hs : get_audio_ai_script_path pe = Err "Audio AI helper script not found").
  { unfold get_audio_ai_script_path. rewrite (AudioAIProofs.first_existing_none pe _ Hnone).
    reflexivity. }
  unfold script_missing.
  repeat split; intros;
    unfold check_ai_models, download_whisper_model, download_diarization_model,
      download_denoiser_model, transcribe_audio, debug_python_env, transcribe_with_diarization,
      export_speaker_srt, export_all_speakers_srt, extract_speaker_audio,
      remove_background_noise, denoise_audio_ffmpeg, run_ffmpeg_command;
    repeat match goal with
           | H : existsb _ _ = false |- _ => rewrite H
           end;
    cbv zeta;
    rewrite ?store_then, (run_python_missing pe rc _ _ _ _ Hs); reflexivity.
Qed.


(** X11: the [CANCEL_DOWNLOAD] flag is written only by the three download
    commands (which store [false]) and by [cancel_model_download] (which
    stores [true]); every other command, whatever its outcome, leaves it as
    it was. *)
Theorem cancel_flag_writers :
  forall path_exists run_child w,
    (forall parse_ModelStatus,
       cancel_download (fst (check_ai_models path_exists run_child parse_ModelStatus w)) = cancel_download w) /\
    (forall parse_TranscriptionResult transcribe_params audio_path model_name language output_format,
       cancel_download (fst (transcribe_audio path_exists run_child parse_TranscriptionResult transcribe_params
                               audio_path model_name language output_format w)) = cancel_download w) /\
    (forall parse_Value,
       cancel_download (fst (debug_python_env path_exists run_child parse_Value w)) = cancel_download w) /\
    (forall parse_DiarizationResult diarize_params audio_path model_name language num_speakers max_speakers,
       cancel_download (fst (transcribe_with_diarization path_exists run_child parse_DiarizationResult
                               diarize_params audio_path model_name language num_speakers max_speakers w))
       = cancel_download w) /\
    (forall parse_ExportResult export_speaker_params diarization_result speaker output_path,
       cancel_download (fst (export_speaker_srt path_exists run_child parse_ExportResult export_speaker_params
                               diarization_result speaker output_path w)) = cancel_download w) /\
    (forall parse_ExportResult export_all_params diarization_result output_dir base_name,
       cancel_download (fst (export_all_speakers_srt path_exists run_child parse_ExportResult export_all_params
                               diarization_result output_dir base_name w)) = cancel_download w) /\
    (forall parse_ExportResult extract_params audio_path diarization_result speaker output_path per_sentence,
       cancel_download (fst (extract_speaker_audio path_exists run_child parse_ExportResult extract_params
                               audio_path diarization_result speaker output_path per_sentence w))
       = cancel_download w) /\
    (forall parse_DenoiseResult audio_path output_path method,
       cancel_download (fst (remove_background_noise path_exists run_child parse_DenoiseResult
                               audio_path output_path method w)) = cancel_download w) /\
    (forall parse_DenoiseResult input_path output_dir method strength,
       cancel_download (fst (denoise_audio_ffmpeg path_exists run_child parse_DenoiseResult
                               input_path output_dir method strength w)) = cancel_download w) /\
    (forall parse_FFmpegCommandResult command,
       cancel_download (fst (run_ffmpeg_command path_exists run_child parse_FFmpegCommandResult command w))
       = cancel_download w) /\
    (forall parse_DownloadResult model_name,
       cancel_download (fst (download_whisper_model path_exists run_child parse_DownloadResult model_name w))
       = false) /\
    (forall parse_DownloadResult,
       cancel_download (fst (download_diarization_model path_exists run_child parse_DownloadResult w))
       = false) /\
    (forall parse_DownloadResult,
       cancel_download (fst (download_denoiser_model path_exists run_child parse_DownloadResult w))
       = false) /\
    cancel_download (fst (cancel_model_download w)) = true.
Proof.
  intros pe rc w.
  repeat split; intros;
    unfold check_ai_models, download_whisper_model, download_diarization_model,
      download_denoiser_model, transcribe_audio, debug_python_env, transcribe_with_diarization,
      export_speaker_srt, export_all_speakers_srt, extract_speaker_audio,
      remove_background_noise, denoise_audio_ffmpeg, run_ffmpeg_command;
    cbv zeta;
    try (destruct (existsb _ _); [reflexivity|]);
    rewrite ?store_then, ?then_lift_world, ?run_python_flag; reflexivity.
Qed.

Lemma forbidden_command_refused_witness :
  to_lowercase Demo.loudnorm_command = "ffmpeg -i in.wav -af loudno" ++ "rm " ++ "out.wav" /\
  run_ffmpeg_command Demo.exists_all (Demo.run_printing "ffmpeg-json") Demo.parse_ffmpeg
    Demo.loudnorm_command Demo.w0 = (Demo.w0, Ok forbidden_result).
Proof.
  split; [reflexivity|].
  apply (forbidden_command_refused _ _ _ _ "rm " "ffmpeg -i in.wav -af loudno" "out.wav");
    [cbn; tauto|reflexivity].
Defined.

Lemma ffmpeg_helper_runs_only_clean_commands_witness :
  Forall (fun pattern => contains (to_lowercase "ffmpeg -i a.mp4 b.mp3") pattern = false)
    dangerous_patterns /\
  exists script,
    get_audio_ai_script_path Demo.exists_all = Ok script /\
    children (fst (run_ffmpeg_command Demo.exists_all (Demo.run_printing "ffmpeg-json")
                     Demo.parse_ffmpeg "ffmpeg -i a.mp4 b.mp3" Demo.w0)) =
    (children Demo.w0 ++ [(get_python_executable Demo.exists_all, script,
                           ["--action"; "run_ffmpeg"; "--command"; "ffmpeg -i a.mp4 b.mp3"])])%list.
Proof.
  apply ffmpeg_helper_runs_only_clean_commands. vm_compute. discriminate.
Defined.

Lemma missing_helper_script_spawns_nothing_witness :
  script_missing (run_ffmpeg_command Demo.exists_none Demo.run_refused Demo.parse_ffmpeg
                    "ffmpeg -i a.mp4 b.mp3" Demo.w0) Demo.w0.
Proof.
  pose proof (missing_helper_script_spawns_nothing Demo.exists_none Demo.run_refused
                ltac:(repeat constructor) Demo.w0) as H.
  apply H. reflexivity.
Defined.


End AudioAICommandsProofs.

(** * Proofs: the capture commands of [screenshot/mod.rs] *)
Module ScreenshotCaptureProofs.
Import Screenshot ScreenshotCapture.

(** A [ScreenshotResult] as the capture commands build it: no image path,
    and either success with a PNG data URL or failure with an error. *)
Definition capture_outcome (r : ScreenshotResult) : Prop :=
  ss_image_path r = None /\
  ((ss_success r = true /\ ss_error r = None /\
    exists d, ss_image_data r = Some ("data:image/png;base64," ++ d)) \/
   (ss_success r = false /\ ss_image_data r = None /\ exists e, ss_error r = Some e)).

Lemma capture_internal_data_url :
  forall Monitor Image Bytes monitor_all capture_image crop write_png base64_encode region d,
    capture_screen_internal Monitor Image Bytes monitor_all capture_image crop write_png
      base64_encode region = Ok d ->
    exists d', d = "data:image/png;base64," ++ d'.
Proof.
  intros Monitor Image Bytes ma ci crop wp b64 region d H. unfold capture_screen_internal in H.
  destruct ma as [[|m ms]|e]; try discriminate H.
  destruct (ci m) as [img|e]; [|discriminate H].
  destruct (wp _) as [bytes|e]; [|discriminate H].
  injection H as <-. eexists. reflexivity.
Qed.

(** X12: [capture_fullscreen], [capture_window] and [capture_region] never
    return [Err]: every failure (no monitor, capture or PNG encoding error)
    comes back as [Ok] with [success = false], no image and an error
    message; on success the image is a "data:image/png;base64," URL and
    there is no error. The image path is never set. *)
Theorem capture_commands_never_fail :
  forall Monitor Image Bytes monitor_all capture_image crop write_png base64_encode,
    (exists r, capture_fullscreen Monitor Image Bytes monitor_all capture_image crop write_png
                 base64_encode = Ok r /\ capture_outcome r) /\
    (exists r, capture_window Monitor Image Bytes monitor_all capture_image crop write_png
                 base64_encode = Ok r /\ capture_outcome r) /\
    (forall region, exists r, capture_region Monitor Image Bytes monitor_all capture_image crop
                       write_png base64_encode region = Ok r /\ capture_outcome r).
Proof.
  intros Monitor Image Bytes ma ci crop wp b64.
  assert (Hok : forall region,
    match capture_screen_internal Monitor Image Bytes ma ci crop wp b64 region with
    | Ok d => exists d', d = "data:image/png;base64," ++ d'
    | Err _ => True
    end).
  { intros region. destruct (capture_screen_internal _ _ _ _ _ _ _ _ region) as [d|e] eqn:H; [|exact I].
    exact (capture_internal_data_url _ _ _ _ _ _ _ _ _ _ H). }
  unfold capture_fullscreen, capture_window, capture_region, capture_outcome.
  split; [|split; [|intros region]];
    [specialize (Hok None)|specialize (Hok None)|specialize (Hok (Some region))];
    destruct (capture_screen_internal _ _ _ _ _ _ _ _ _) as [d|e];
    (eexists; split; [reflexivity|]); cbn; (split; [reflexivity|]);
    first [right; split; [reflexivity|split; [reflexivity|eexists; reflexivity]]
          |left; destruct Hok as [d' ->]; split; [reflexivity|split; [reflexivity|eexists; reflexivity]]].
Qed.

(** X13: [capture_with_snipping_tool] and [capture_region_native] return
    [Err] only off Windows (with a fixed message) or when the tool cannot
    be launched (the launch error, prefixed); once launched on Windows they
    always return [Ok], the outcome of the clipboard wait. *)
Theorem native_capture_errors :
  forall windows powershell probe_ms launch e,
    (capture_with_snipping_tool windows powershell probe_ms launch = Err e ->
       (windows = false /\ e = "Native snipping tool only supported on Windows") \/
       (windows = true /\ exists e', launch = Err e' /\ e = "Failed to launch Snipping Tool: " ++ e')) /\
    (capture_region_native windows powershell probe_ms launch = Err e ->
       (windows = false /\ e = "Native region capture only supported on Windows") \/
       (windows = true /\ exists e', launch = Err e' /\ e = "Failed to launch Screen Snipping: " ++ e')).
Proof.
  intros windows ps pm launch e.
  unfold capture_with_snipping_tool, capture_region_native.
  destruct windows.
  - destruct launch as [u|e'].
    + unfold wait_for_clipboard_image.
      split; intros H; destruct (poll_loop _ _ _ _) in H; discriminate H.
    + split; intros H; injection H as <-; right; split; [reflexivity| |reflexivity|];
        exists e'; split; reflexivity.
  - split; intros H; injection H as <-; left; split; reflexivity.
Qed.

Lemma latest_file_app : forall l x, latest_file (l ++ [x]) = latest_step (latest_file l) x.
Proof. intros l x. unfold latest_file. rewrite fold_left_app. reflexivity. Qed.

(** The candidate bounds every readable creation time seen so far. *)
Lemma latest_file_max : forall l,
  match latest_file l with
  | Some (_, latest) => forall e c, In (Ok e) l -> de_created e = Ok c -> (c <= latest)%N
  | None => forall e c, In (Ok e) l -> de_created e = Ok c -> False
  end.
Proof.
  induction l as [|x l IH] using rev_ind; [intros e c []|].
  rewrite latest_file_app. unfold latest_step.
  assert (Hin : forall e c, In (Ok e) (l ++ [x]) -> de_created e = Ok c ->
                In (Ok e) l \/ (x = Ok e /\ de_created e = Ok c)).
  { intros e c Hi Hc. apply in_app_or in Hi as [Hi|[Hi|[]]]; [left; exact Hi|right; split; auto]. }
  destruct x as [ex|err].
  - destruct (de_created ex) as [created|err] eqn:Hex.
    + destruct (latest_file l) as [[p latest]|] eqn:Hl.
      * destruct (latest <? created)%N eqn:Hlt.
        -- apply N.ltb_lt in Hlt. intros e c Hi Hc.
           destruct (Hin e c Hi Hc) as [Hi'|[Hx Hc']]; [specialize (IH e c Hi' Hc); lia|].
           injection Hx as ->. rewrite Hex in Hc'. injection Hc' as ->. lia.
        -- apply N.ltb_ge in Hlt. intros e c Hi Hc.
           destruct (Hin e c Hi Hc) as [Hi'|[Hx Hc']]; [exact (IH e c Hi' Hc)|].
           injection Hx as ->. rewrite Hex in Hc'. injection Hc' as ->. exact Hlt.
      * intros e c Hi Hc.
        destruct (Hin e c Hi Hc) as [Hi'|[Hx Hc']]; [destruct (IH e c Hi' Hc)|].
        injection Hx as ->. rewrite Hex in Hc'. injection Hc' as ->. lia.
    + destruct (latest_file l) as [[p latest]|];
        intros e c Hi Hc; destruct (Hin e c Hi Hc) as [Hi'|[Hx Hc']];
        try exact (IH e c Hi' Hc); injection Hx as ->; rewrite Hex in Hc'; discriminate Hc'.
  - destruct (latest_file l) as [[p latest]|];
      intros e c Hi Hc; destruct (Hin e c Hi Hc) as [Hi'|[Hx _]];
      try exact (IH e c Hi' Hc); discriminate Hx.
Qed.

(** The chosen entry: later than every readable entry before it, and not
    earlier than any after it. *)
Lemma latest_file_spec : forall l path created,
  latest_file l = Some (path, created) ->
  exists before after,
    l = (before ++ Ok {| de_path := path; de_created := Ok created |} :: after)%list /\
    (forall e c, In (Ok e) before -> de_created e = Ok c -> (c < created)%N) /\
    (forall e c, In (Ok e) after -> de_created e = Ok c -> (c <= created)%N).
Proof.
  induction l as [|x l IH] using rev_ind; [discriminate|].
  intros path created H. pose proof (latest_file_max l) as Hmax.
  rewrite latest_file_app in H. unfold latest_step in H.
  (* the entry [x] keeps the candidate: extend [after] with it *)
  assert (Hkeep : latest_file l = Some (path, created) ->
                  (forall e c, x = Ok e -> de_created e = Ok c -> (c <= created)%N) ->
                  exists before after,
                    (l ++ [x] = before ++ Ok {| de_path := path; de_created := Ok created |} :: after)%list /\
                    (forall e c, In (Ok e) before -> de_created e = Ok c -> (c < created)%N) /\
                    (forall e c, In (Ok e) after -> de_created e = Ok c -> (c <= created)%N)).
  { intros Hl Hx. destruct (IH path created Hl) as [before [after [-> [Hb Ha]]]].
    exists before, (after ++ [x])%list. split; [rewrite <- app_assoc; reflexivity|].
    split; [exact Hb|]. intros e c Hi Hc.
    apply in_app_or in Hi as [Hi|[Hi|[]]]; [exact (Ha e c Hi Hc)|exact (Hx e c Hi Hc)]. }
  destruct x as [ex|err].
  - destruct (de_created ex) as [c'|err] eqn:Hex.
    + destruct (latest_file l) as [[p latest]|] eqn:Hl.
      * destruct (latest <? c')%N eqn:Hlt.
        -- injection H as <- <-. apply N.ltb_lt in Hlt.
           exists l, []. split; [destruct ex; cbn in Hex; subst; reflexivity|].
           split; [intros e c Hi Hc; specialize (Hmax e c Hi Hc); lia|intros e c []].
        -- apply Hkeep; [exact H|]. injection H as -> ->. apply N.ltb_ge in Hlt.
           intros e c Hx Hc. injection Hx as <-. rewrite Hex in Hc. injection Hc as <-. exact Hlt.
      * injection H as <- <-. exists l, []. split; [destruct ex; cbn in Hex; subst; reflexivity|].
        split; [intros e c Hi Hc; destruct (Hmax e c Hi Hc)|intros e c []].
    + destruct (latest_file l) as [[p latest]|] eqn:Hl; [|discriminate H].
      apply Hkeep; [exact H|]. intros e c Hx Hc. injection Hx as <-. rewrite Hex in Hc. discriminate Hc.
  - destruct (latest_file l) as [[p latest]|] eqn:Hl; [|discriminate H].
    apply Hkeep; [exact H|]. intros e c Hx. discriminate Hx.
Qed.

(** X14: [cleanup_latest_screenshot] removes at most one file, and only on
    Windows: the entry of the Screenshots folder with the latest readable
    creation time (the first listed among equal times), and only when that
    time is not in the future and less than 10 s before now. *)
Theorem cleanup_removes_newest_recent :
  forall windows user_profile screenshots_dir_of dir_exists read_dir now path,
    cleanup_latest_screenshot windows user_profile screenshots_dir_of dir_exists read_dir now
      = Some path ->
    windows = true /\
    exists profile entries before created after,
      user_profile = Some profile /\
      read_dir (screenshots_dir_of profile) = Ok entries /\
      entries = (before ++ Ok {| de_path := path; de_created := Ok created |} :: after)%list /\
      (created <= now < created + 10 * ns_per_sec)%N /\
      (forall e c, In (Ok e) before -> de_created e = Ok c -> (c < created)%N) /\
      (forall e c, In (Ok e) after -> de_created e = Ok c -> (c <= created)%N).
Proof.
  intros windows up dir_of dir_exists read_dir now path H.
  unfold cleanup_latest_screenshot in H.
  destruct windows; [split; [reflexivity|]|discriminate H].
  destruct up as [profile|]; [|discriminate H].
  destruct (dir_exists (dir_of profile)); [|discriminate H].
  destruct (read_dir (dir_of profile)) as [entries|err] eqn:Hrd; [|discriminate H].
  destruct (latest_file entries) as [[p created]|] eqn:Hl; [|discriminate H].
  destruct (created <=? now)%N eqn:Hle; [|discriminate H].
  destruct ((now - created) / ns_per_sec <? 10)%N eqn:Hlt; [|discriminate H].
  injection H as <-.
  destruct (latest_file_spec entries p created Hl) as [before [after [He [Hb Ha]]]].
  exists profile, entries, before, created, after.
  split; [reflexivity|]. split; [exact Hrd|]. split; [exact He|].
  split; [|split; assumption].
  apply N.leb_le in Hle. apply N.ltb_lt in Hlt.
  pose proof (N.div_mod (now - created) ns_per_sec ltac:(unfold ns_per_sec; lia)) as Hdm.
  pose proof (N.mod_lt (now - created) ns_per_sec ltac:(unfold ns_per_sec; lia)) as Hml.
  unfold ns_per_sec in *. lia.
Qed.

Lemma native_capture_errors_witness :
  (false = false /\ "Native snipping tool only supported on Windows" =
                    "Native snipping tool only supported on Windows") \/
  (false = true /\ exists e', (Ok tt : Result unit string) = Err e' /\
     "Native snipping tool only supported on Windows" = "Failed to launch Snipping Tool: " ++ e').
Proof.
  apply (proj1 (native_capture_errors false Demo.probe_never Demo.probe_cost (Ok tt)
                  "Native snipping tool only supported on Windows")).
  reflexivity.
Defined.

Lemma cleanup_removes_newest_recent_witness :
  true = true /\
  exists profile entries before created after,
    Some "C:/Users/ana" = Some profile /\
    Demo.read_screenshots (Demo.screenshots_dir profile) = Ok entries /\
    entries = (before ++ Ok {| de_path := "b.png"; de_created := Ok created |} :: after)%list /\
    (created <= Demo.now_ns < created + 10 * ns_per_sec)%N /\
    (forall e c, In (Ok e) before -> de_created e = Ok c -> (c < created)%N) /\
    (forall e c, In (Ok e) after -> de_created e = Ok c -> (c <= created)%N).
Proof.
  apply (cleanup_removes_newest_recent true (Some "C:/Users/ana") Demo.screenshots_dir
           Demo.dir_present Demo.read_screenshots Demo.now_ns "b.png").
  vm_compute. reflexivity.
Defined.

End ScreenshotCaptureProofs.

(** * Proofs: more of the audio player of [player.rs] *)
Module PlayerExtraProofs.
Import Player.

Lemma send_dead : forall command s, worker_alive s = false -> send command s = s.
Proof. intros command s H. unfold send. rewrite H. destruct (poisoned s); reflexivity. Qed.

Lemma send_poisoned : forall command s, poisoned s = true -> send command s = s.
Proof. intros command s H. unfold send. rewrite H. reflexivity. Qed.

(** X15: under any interleaving of producers, sink progress, panics and
    the worker, a worker that has exited never comes back: no command is
    received or executed, no sink call is made and no command is accepted
    any more. A poisoned sender lock stays poisoned, and no command is
    accepted after it. *)
Theorem closed_player_stays_closed :
  forall file_open_ok decoder_ok s s',
    clos_refl_trans_1n System (step file_open_ok decoder_ok) s s' ->
    (worker_alive s = false ->
       worker_alive s' = false /\ executed s' = executed s /\
       sink_log s' = sink_log s /\ enqueued s' = enqueued s) /\
    (poisoned s = true -> poisoned s' = true /\ enqueued s' = enqueued s).
Proof.
  intros fo dok s s' Hs. induction Hs as [s|s y z Hstep _ [IHa IHp]]; [split; auto|].
  split.
  - intros Ha. inversion Hstep as [s0 command|s0 s1 Hr|s0 src rest Hsrc|s0|s0]; subst.
    + rewrite send_dead in IHa by exact Ha. exact (IHa Ha).
    + unfold worker_recv in Hr. rewrite Ha in Hr. discriminate Hr.
    + destruct (IHa Ha) as (H1 & H2 & H3 & H4). repeat split; assumption.
    + destruct (IHa eq_refl) as (H1 & H2 & H3 & H4). repeat split; assumption.
    + destruct (IHa Ha) as (H1 & H2 & H3 & H4). repeat split; assumption.
  - intros Hp. inversion Hstep as [s0 command|s0 s1 Hr|s0 src rest Hsrc|s0|s0]; subst.
    + rewrite send_poisoned in IHp by exact Hp. exact (IHp Hp).
    + unfold worker_recv in Hr. destruct (worker_alive s); [|discriminate Hr].
      destruct (chan s) as [|command rest]; [discriminate Hr|].
      injection Hr as <-. exact (IHp Hp).
    + exact (IHp Hp).
    + exact (IHp Hp).
    + exact (IHp eq_refl).
Qed.

(** X16: when the worker receives [Play(path)] and the file opens and
    decodes, whatever the sink had queued is replaced by that one source,
    playback is unpaused and the volume is kept; when the file cannot be
    opened or decoded, the sink is left as it was. *)
Theorem play_replaces_queue :
  forall file_open_ok decoder_ok s s' path rest,
    chan s = Play path :: rest ->
    worker_recv file_open_ok decoder_ok s = Some s' ->
    sink s' = if file_open_ok path && decoder_ok path
              then {| sources := [path]; paused := false; volume := volume (sink s) |}
              else sink s.
Proof.
  intros fo dok s s' path rest Hc Hr. unfold worker_recv in Hr.
  destruct (worker_alive s); [|discriminate Hr].
  rewrite Hc in Hr. injection Hr as <-. cbn [sink command_calls].
  destruct (fo path), (dok path); cbn; try reflexivity.
  destruct (sink s) as [[|src srcs] p v]; reflexivity.
Qed.

Lemma closed_player_stays_closed_witness :
  (let s' := send (Play "B.mp3") (send (Play "A.mp3") Demo.dead_player) in
   (worker_alive Demo.dead_player = false ->
      worker_alive s' = false /\ executed s' = executed Demo.dead_player /\
      sink_log s' = sink_log Demo.dead_player /\ enqueued s' = enqueued Demo.dead_player) /\
   (poisoned Demo.dead_player = true ->
      poisoned s' = true /\ enqueued s' = enqueued Demo.dead_player)) /\
  (let s' := send Stop (send (Play "A.mp3") Demo.poisoned_player) in
   (worker_alive Demo.poisoned_player = false ->
      worker_alive s' = false /\ executed s' = executed Demo.poisoned_player /\
      sink_log s' = sink_log Demo.poisoned_player /\ enqueued s' = enqueued Demo.poisoned_player) /\
   (poisoned Demo.poisoned_player = true ->
      poisoned s' = true /\ enqueued s' = enqueued Demo.poisoned_player)).
Proof.
  split; apply (closed_player_stays_closed Demo.file_ok Demo.file_ok);
    (eapply rt1n_trans; [apply step_send|]);
    (eapply rt1n_trans; [apply step_send|]);
    apply rt1n_refl.
Defined.

Lemma play_replaces_queue_witness :
  sink Demo.after_play =
    if Demo.file_ok "A.mp3" && Demo.file_ok "A.mp3"
    then {| sources := ["A.mp3"]; paused := false; volume := volume (sink Demo.four_sent) |}
    else sink Demo.four_sent.
Proof.
  apply (play_replaces_queue Demo.file_ok Demo.file_ok Demo.four_sent Demo.after_play "A.mp3"
           [SetVolume 0.5%float; Pause; Stop]); vm_compute; reflexivity.
Defined.

End PlayerExtraProofs.
